(** * Fish Finder: the asynchronous identification pipeline

    A shallow embedding of the client poll loops (mobile [api.ts] and
    [HomeScreen.tsx], webapp [app.js]), of the auth facade ([auth.ts]) and of
    the Terraform declarations of the work queue, the result table and the
    upload notification, together with the properties the specification states
    about them. *)

From Stdlib Require Import ZArith Lia Ascii String.
From stdpp Require Import base option list strings pretty gmap.
From Equations Require Import Equations.

Local Open Scope Z_scope.

(* ===================================================================== *)
(** * JavaScript values shared by the clients *)
(* ===================================================================== *)

Module JS.

(** A thrown [Error]; the callers only ever read its [message]. *)
Record Error : Type := mkError { message : string }.

(** How an [await]ed call ends: it returns a value or throws. *)
Inductive Completion (A : Type) : Type :=
| Return (a : A)
| Throw (e : Error).
Arguments Return {A} a.
Arguments Throw {A} e.

(** [x ?? d]: only [null]/[undefined] is replaced. *)
Definition nullish {A : Type} (x : option A) (d : A) : A :=
  match x with Some a => a | None => d end.

(** [s || d] on strings: the empty string is falsy. *)
Definition or_else (s d : string) : string :=
  if String.eqb s EmptyString then d else s.

(** Template-literal rendering of an integral number. *)
Definition num (z : Z) : string := pretty z.

(** [try { x = await c; k x }] without the [catch]: the first throw wins. *)
Definition bind {A B : Type} (c : Completion A) (k : A -> Completion B) : Completion B :=
  match c with
  | Return a => k a
  | Throw e => Throw e
  end.

(** What the code reads off a [fetch] response: [ok], [status], the body as
    [text()] and the body as [json()] (which throws on a malformed body). *)
Record Response (A : Type) : Type := mkResponse {
  ok : bool;
  http_status : Z;
  text : string;
  json : Completion A
}.
Arguments mkResponse {A}.
Arguments ok {A}.
Arguments http_status {A}.
Arguments text {A}.
Arguments json {A}.

End JS.

Import JS.

(** [Completion] is an error monad; [x ← c; k] is stdpp's notation for
    [bind]. *)
#[global] Instance Completion_ret : MRet Completion := @Return.
#[global] Instance Completion_bind : MBind Completion :=
  fun A B k c => bind c k.

(* ===================================================================== *)
(** * mobile/src/services/api.ts *)
(* ===================================================================== *)

Module Api.

(** [interface FishResult] *)
Record FishResult : Type := mkFishResult {
  species : string;
  hebrew_name : string;
  native : bool;
  population : string;
  avg_size_cm : Z;
  min_size_cm : Z;
  seasonal_ban : option string;
  notes : string;
  description : string
}.

(** [interface UploadUrlResponse] *)
Record UploadUrlResponse : Type := mkUploadUrlResponse {
  image_id : string;
  upload_url : string;
  fields : list (string * string)
}.

(** [interface PollResponse]: the TypeScript union for [status] is not
    checked at run time, so the field is whatever string the server sent. *)
Record PollResponse : Type := mkPollResponse {
  status : string;
  result : option FishResult;
  error : option string
}.

(** [getUploadUrl], given what its request came back with. *)
Definition getUploadUrl (fetched : Completion (Response UploadUrlResponse))
  : Completion UploadUrlResponse :=
  match fetched with
  | Throw e => Throw e
  | Return response =>
      if negb (ok response) then
        Throw (mkError ("Failed to get upload URL (" +:+ num (http_status response)
                          +:+ "): " +:+ text response))
      else json response
  end.

(** [uploadToS3], given what the POST to S3 came back with. *)
Definition uploadToS3 (fetched : Completion (Response unit)) : Completion unit :=
  match fetched with
  | Throw e => Throw e
  | Return response =>
      if negb (ok response) && negb (http_status response =? 204) then
        Throw (mkError ("S3 upload failed (" +:+ num (http_status response)
                          +:+ "): " +:+ text response))
      else Return tt
  end.

Definition POLL_INTERVAL_MS : Z := 3000.

(** The default of the [maxAttempts] parameter. *)
Definition default_maxAttempts : Z := 20.

(** What one turn of the loop body decides. *)
Inductive Step : Type :=
| Resolve (r : FishResult)
| Reject (e : Error)
| Continue.

(** The body of the [for] loop of [pollResults] up to (not including) the
    [delay]: the request, the [ok] check, the decoding and the two terminal
    tests. *)
Definition pollAttempt (fetched : Completion (Response PollResponse)) : Step :=
  match fetched with
  | Throw e => Reject e
  | Return response =>
      if negb (ok response) then
        Reject (mkError ("Polling request failed (" +:+ num (http_status response)
                           +:+ "): " +:+ text response))
      else
        match json response with
        | Throw e => Reject e
        | Return data =>
            match String.eqb (status data) "completed", result data with
            | true, Some r => Resolve r
            | _, _ =>
                if String.eqb (status data) "error" then
                  Reject (mkError (nullish (error data)
                                     "Fish identification failed on the server."))
                else Continue
            end
        end
  end.

(** The error thrown after the loop. *)
Definition timeout_error (maxAttempts : Z) : Error :=
  mkError ("Identification timed out after " +:+ num maxAttempts
             +:+ " attempts (~" +:+ num (maxAttempts * POLL_INTERVAL_MS / 1000)
             +:+ "s). Please try again.").

(** A finished run of [pollResults]: how the promise settled, how many
    requests were sent and how long the loop slept in [delay]. *)
Record PollRun : Type := mkPollRun {
  outcome : Completion FishResult;
  requests : Z;
  slept_ms : Z
}.

Section PollResults.

(** [fetch n] is what the [n]-th request (attempt [n]) comes back with. *)
Variable fetch : Z -> Completion (Response PollResponse).
Variable maxAttempts : Z.

(** [for (let attempt = 1; attempt <= maxAttempts; attempt++)], entered at
    [attempt] with [sent] requests and [slept] milliseconds of [delay]
    behind it. *)
Equations pollFrom (attempt : Z) (sent : Z) (slept : Z) : PollRun
  by wf (Z.to_nat (maxAttempts + 1 - attempt)) lt :=
pollFrom attempt sent slept with decide (attempt <= maxAttempts) := {
  | left _ =>
      match pollAttempt (fetch attempt) with
      | Resolve r => mkPollRun (Return r) (sent + 1) slept
      | Reject e => mkPollRun (Throw e) (sent + 1) slept
      | Continue =>
          if decide (attempt < maxAttempts)
          then pollFrom (attempt + 1) (sent + 1) (slept + POLL_INTERVAL_MS)
          else pollFrom (attempt + 1) (sent + 1) slept
      end
  | right _ =>
      mkPollRun (Throw (timeout_error maxAttempts)) sent slept }.
Next Obligation. lia. Qed.
Next Obligation. lia. Qed.

Definition pollResults : PollRun := pollFrom 1 0 0.

(** What the loop does from [attempt] on: it stops at the first terminal
    turn, or runs out of attempts. *)
Inductive Ending (attempt sent slept : Z) (run : PollRun) : Prop :=
| ends_resolved (k : Z) (r : FishResult) :
    attempt <= k <= maxAttempts ->
    (forall i, attempt <= i < k -> pollAttempt (fetch i) = Continue) ->
    pollAttempt (fetch k) = Resolve r ->
    run = mkPollRun (Return r) (sent + (k - attempt + 1))
                    (slept + POLL_INTERVAL_MS * (k - attempt)) ->
    Ending attempt sent slept run
| ends_rejected (k : Z) (e : Error) :
    attempt <= k <= maxAttempts ->
    (forall i, attempt <= i < k -> pollAttempt (fetch i) = Continue) ->
    pollAttempt (fetch k) = Reject e ->
    run = mkPollRun (Throw e) (sent + (k - attempt + 1))
                    (slept + POLL_INTERVAL_MS * (k - attempt)) ->
    Ending attempt sent slept run
| ends_timed_out :
    (forall i, attempt <= i <= maxAttempts -> pollAttempt (fetch i) = Continue) ->
    run = mkPollRun (Throw (timeout_error maxAttempts))
                    (sent + Z.max 0 (maxAttempts - attempt + 1))
                    (slept + POLL_INTERVAL_MS * Z.max 0 (maxAttempts - attempt)) ->
    Ending attempt sent slept run.

End PollResults.

(** ** The multipart body of [uploadToS3] *)

(** One part of a [FormData]: a plain field, or the file object
    [{ uri, name, type }] React Native sends as a file. *)
Inductive FormPart : Type :=
| Field (key value : string)
| FileRef (key uri name type : string).

Fixpoint has_dot (s : string) : bool :=
  match s with
  | EmptyString => false
  | String c rest => Ascii.eqb c "."%char || has_dot rest
  end.

(** [s.split('.')]: the pieces between the dots, never an empty array. *)
Fixpoint split_dot (s : string) : list string :=
  match s with
  | EmptyString => [EmptyString]
  | String c rest =>
      if Ascii.eqb c "."%char then EmptyString :: split_dot rest
      else
        match split_dot rest with
        | seg :: segs => String c seg :: segs
        | [] => [String c EmptyString]
        end
  end.

Section UploadForm.

(** [String.prototype.toLowerCase]. *)
Variable toLowerCase : string -> string.

(** [imageUri.split('.').pop()?.toLowerCase() ?? 'jpg'] *)
Definition extension (imageUri : string) : string :=
  nullish (toLowerCase <$> last (split_dot imageUri)) "jpg".

Definition mimeType (imageUri : string) : string :=
  if String.eqb (extension imageUri) "png" then "image/png" else "image/jpeg".

(** The [formData] that [uploadToS3] posts; [fields] lists the policy fields
    in the order of [Object.entries]. *)
Definition uploadForm (fields : list (string * string)) (imageUri : string)
  : list FormPart :=
  map (fun kv => Field (fst kv) (snd kv)) fields
  ++ [FileRef "file" imageUri ("photo." +:+ extension imageUri) (mimeType imageUri)].

End UploadForm.

End Api.

(* ===================================================================== *)
(** * mobile/src/screens/HomeScreen.tsx *)
(* ===================================================================== *)

Module HomeScreen.

Import Api.

(** [type UploadState] *)
Inductive UploadState : Type := idle | uploading | processing | done | error.

#[global] Instance UploadState_eq_dec : EqDecision UploadState.
Proof. solve_decision. Defined.

(** The component state [handleIdentify] touches, with the route it
    navigated to and the successive values given to [setUploadState]. *)
Record Screen : Type := mkScreen {
  imageUri : option string;
  uploadState : UploadState;
  errorMessage : option string;
  navigated : option FishResult;
  history : list UploadState
}.

Definition setUploadState (s : UploadState) (scr : Screen) : Screen :=
  mkScreen (imageUri scr) s (errorMessage scr) (navigated scr) (history scr ++ [s]).

Definition setErrorMessage (m : option string) (scr : Screen) : Screen :=
  mkScreen (imageUri scr) (uploadState scr) m (navigated scr) (history scr).

Definition navigate_Result (r : FishResult) (scr : Screen) : Screen :=
  mkScreen (imageUri scr) (uploadState scr) (errorMessage scr) (Some r) (history scr).

(** The network as one press of "Identify" sees it. *)
Record Backend : Type := mkBackend {
  upload_url_reply : Completion (Response UploadUrlResponse);
  s3_reply : Completion (Response unit);
  results_reply : Z -> Completion (Response PollResponse)
}.

(** The [catch] block of [handleIdentify]. *)
Definition fail (e : Error) (scr : Screen) : Screen :=
  setUploadState error (setErrorMessage (Some (message e)) scr).

(** [handleIdentify]; [!imageUri] holds for [null] and for the empty string,
    [pollResults] is called with its default [maxAttempts], and whatever is
    thrown is an [Error]. *)
Definition handleIdentify (net : Backend) (scr : Screen) : Screen :=
  match imageUri scr with
  | None => scr
  | Some uri =>
      if String.eqb uri EmptyString then scr
      else
        let scr := setErrorMessage None scr in
        let scr := setUploadState uploading scr in
        match getUploadUrl (upload_url_reply net) with
        | Throw e => fail e scr
        | Return _ =>
            match uploadToS3 (s3_reply net) with
            | Throw e => fail e scr
            | Return _ =>
                let scr := setUploadState processing scr in
                match outcome (pollResults (results_reply net) default_maxAttempts) with
                | Throw e => fail e scr
                | Return r => navigate_Result r (setUploadState done scr)
                end
            end
        end
  end.


End HomeScreen.

(* ===================================================================== *)
(** * webapp/static/app.js *)
(* ===================================================================== *)

Module App.

Definition POLL_INTERVAL_MS : Z := 3000.
Definition POLL_MAX_ATTEMPTS : Z := 40.

(** The body of [GET /api/results/<image_id>] as [pollForResults] and
    [displayResults] read it: a flat object. *)
Record ResultsData : Type := mkResultsData {
  status : string;
  hebrew_name : string;
  species : string;
  native : string;
  population : string;
  avg_size_cm : Z;
  min_size_cm : Z;
  notes : string;
  description : string;
  seasonal_ban : bool
}.

(** The body of [GET /api/upload-url]. *)
Record UploadUrlData : Type := mkUploadUrlData {
  image_id : string;
  upload_url : string;
  fields : list (string * string)
}.

(** The section that is shown: one of the four [showState] knows, or none
    of them. *)
Inductive View : Type :=
| view_upload | view_status | view_results | view_error | view_none.

(** The module-level state the upload flow writes: the interval handle, the
    visible section, the error text and the data last handed to
    [displayResults].  (The progress texts of [setStatus] are left out.) *)
Record Page : Type := mkPage {
  pollTimer : bool;
  view : View;
  errorText : string;
  displayed : option ResultsData
}.

(** [showState(state)]: the section named by [state] is shown and the other
    three are hidden; with any other argument all four are hidden. *)
Definition showState (v : View) (pg : Page) : Page :=
  mkPage (pollTimer pg) v (errorText pg) (displayed pg).

Definition showError (m : string) (pg : Page) : Page :=
  showState view_error (mkPage (pollTimer pg) (view pg) m (displayed pg)).

(** [displayResults]: the result fields are filled from [data], then
    [showState("results")]. *)
Definition displayResults (data : ResultsData) (pg : Page) : Page :=
  showState view_results (mkPage (pollTimer pg) (view pg) (errorText pg) (Some data)).

(** [pollTimer = setInterval(...)] and
    [clearInterval(pollTimer); pollTimer = null]. *)
Definition setTimer (on : bool) (pg : Page) : Page :=
  mkPage on (view pg) (errorText pg) (displayed pg).

(** The click handler of the logout button, as far as the upload flow can
    see it: the four sections are hidden (the sign-in form takes their place)
    and the interval is left as it is.  The handler also signs out and sets
    [cognitoUser] and [idToken] to [null]; only a later [getIdToken] reads
    those, and what [getIdToken] resolves with is given for each request on
    its own ([token] of the backend, [id_token] of a poll request), so every
    order of sign-outs and token look-ups is covered. *)
Definition logout (pg : Page) : Page := showState view_none pg.

Definition session_expired : Error := mkError "Session expired. Please sign in again.".

(** [!token]: [null] and the empty string are falsy. *)
Definition truthy (token : option string) : option string :=
  match token with
  | Some t => if String.eqb t EmptyString then None else Some t
  | None => None
  end.

(** [authFetch]: [token] is what [getIdToken] resolved with and [fetched]
    what the request came back with; the page goes in and comes out because
    of the click on the logout button that precedes both throws. *)
Definition authFetch {A : Type} (token : option string)
    (fetched : Completion (Response A)) (pg : Page)
  : Completion (Response A) * Page :=
  match truthy token with
  | None => (Throw session_expired, logout pg)
  | Some _ =>
      match fetched with
      | Throw e => (Throw e, pg)
      | Return res =>
          if http_status res =? 401 then (Throw session_expired, logout pg)
          else (Return res, pg)
      end
  end.

Definition poll_timeout_error : Error :=
  mkError "הזמן הקצוב עבר. ה-Worker לא הגיב. בדוק שה-EC2 פועל.".

(** What one run of the interval callback decides. *)
Inductive Verdict : Type :=
| Ready (data : ResultsData)
| TimedOut
| Pending
| Failed (e : Error).

(** The [try] block of the callback, after [attempts++]; [displayResults]
    is taken not to throw. *)
Definition pollAttempt (attempts : Z)
    (fetched : Completion (Response ResultsData)) : Verdict :=
  match fetched with
  | Throw e => Failed e
  | Return res =>
      if negb (ok res) then
        Failed (mkError ("Results API error (HTTP " +:+ num (http_status res) +:+ ")"))
      else
        match json res with
        | Throw e => Failed e
        | Return data =>
            if String.eqb (status data) "ready" then Ready data
            else if POLL_MAX_ATTEMPTS <=? attempts then TimedOut
            else Pending
        end
  end.

(** The promise of [pollForResults] with the closure variable [attempts], the
    page and the time spent waiting for interval ticks. *)
Record Poller : Type := mkPoller {
  attempts : Z;
  settled : option (Completion unit);
  page : Page;
  waited_ms : Z
}.

(** The first [resolve]/[reject] settles a promise; later ones do nothing. *)
Definition settle (c : Completion unit) (s : option (Completion unit))
  : option (Completion unit) :=
  match s with
  | None => Some c
  | Some _ => s
  end.

(** How one poll request goes: what [getIdToken] resolves with for it and
    what its [fetch] comes back with, if it is sent. *)
Record Request : Type := mkRequest {
  id_token : option string;
  reply : Completion (Response ResultsData)
}.

(** What happens to a running [pollForResults]: the interval fires, or the
    callback of request [n] gets its answer and runs to its end.  The interval
    fires every [POLL_INTERVAL_MS] whether or not earlier requests have been
    answered, so any number of ticks may come between a request and its
    answer. *)
Inductive Event : Type :=
| Tick
| Reply (n : Z).

(** The poll with the requests still unanswered. *)
Record Machine : Type := mkMachine {
  poller : Poller;
  unanswered : list Z
}.

Section PollForResults.

(** [requests n] is how the request sent by the [n]-th tick goes. *)
Variable requests : Z -> Request.

(** What the caller awaiting the promise does when it rejects (the [catch] of
    [startIdentification]); it runs right after the callback that rejected. *)
Variable caught : Error -> Page -> Page.

(** The callback up to its [await]: [attempts++]; the request goes out. *)
Definition onTick (p : Poller) : Poller :=
  mkPoller (attempts p + 1) (settled p) (page p) (waited_ms p + POLL_INTERVAL_MS).

(** [clearInterval(pollTimer); pollTimer = null; reject(err)], and the
    caller's reaction if this is what settles the promise. *)
Definition rejected (e : Error) (pg : Page) (p : Poller) : Poller :=
  mkPoller (attempts p) (settle (Throw e) (settled p))
    (match settled p with
     | None => caught e (setTimer false pg)
     | Some _ => setTimer false pg
     end)
    (waited_ms p).

(** The rest of the callback of request [n], run when its answer is in: the
    limit is compared with [attempts] as it is by then.  [displayResults] is
    taken not to throw. *)
Definition onReply (n : Z) (p : Poller) : Poller :=
  let '(res, pg) := authFetch (id_token (requests n)) (reply (requests n)) (page p) in
  match pollAttempt (attempts p) res with
  | Ready data =>
      mkPoller (attempts p) (settle (Return tt) (settled p))
               (displayResults data (setTimer false pg)) (waited_ms p)
  | TimedOut => rejected poll_timeout_error pg p
  | Pending => mkPoller (attempts p) (settled p) pg (waited_ms p)
  | Failed e => rejected e pg p
  end.

(** One event: a tick counts only while the interval is set, an answer only
    for a request that is out. *)
Definition deliver (m : Machine) (ev : Event) : Machine :=
  match ev with
  | Tick =>
      if pollTimer (page (poller m)) then
        mkMachine (onTick (poller m)) (unanswered m ++ [attempts (poller m) + 1])
      else m
  | Reply n =>
      if bool_decide (n ∈ unanswered m) then
        mkMachine (onReply n (poller m)) (filter (fun i => i <> n) (unanswered m))
      else m
  end.

Definition run (schedule : list Event) (m : Machine) : Machine :=
  foldl deliver m schedule.

(** A fresh promise, [attempts = 0], the interval set. *)
Definition start (pg : Page) : Machine :=
  mkMachine (mkPoller 0 None (setTimer true pg) 0) [].

End PollForResults.

(** What holds of a poll at every moment: the interval is set exactly while
    the promise is unsettled, one interval has been waited for each tick, and
    the requests still out were sent by ticks that have fired. *)
Definition well_formed (m : Machine) : Prop :=
  (pollTimer (page (poller m)) = true <-> settled (poller m) = None)
  /\ 0 <= attempts (poller m)
  /\ waited_ms (poller m) = POLL_INTERVAL_MS * attempts (poller m)
  /\ Forall (fun n => 1 <= n <= attempts (poller m)) (unanswered m).

(** [pollForResults] on its own, nobody reacting to the promise, under a
    schedule of ticks and answers. *)
Definition pollForResults (requests : Z -> Request) (schedule : list Event)
    (pg : Page) : Machine :=
  run requests (fun _ pg => pg) schedule (start pg).

(** The schedule on which every answer is in before the next tick:
    tick, answer 1, tick, answer 2, ... for [rounds] rounds. *)
Definition promptly (rounds : nat) : list Event :=
  flat_map (fun i => [Tick; Reply (Z.of_nat i)]) (seq 1 rounds).

(** Requests of a signed-in user whose fetches come back with [results]. *)
Definition signed_in (results : Z -> Completion (Response ResultsData))
  : Z -> Request :=
  fun n => mkRequest (Some "jwt") (results n).

(** The network as one click on "upload" sees it. *)
Record Backend : Type := mkBackend {
  token : option string;
  upload_url_reply : Completion (Response UploadUrlData);
  s3_reply : Completion (Response unit);
  results : Z -> Request
}.

(** Steps 1 and 2 of [startIdentification], inside its [try]. *)
Definition upload (net : Backend) (pg : Page) : Completion string * Page :=
  let '(fetched, pg) := authFetch (token net) (upload_url_reply net) pg in
  (urlRes ← fetched;
   if negb (ok urlRes) then
     Throw (mkError ("Failed to get upload URL (HTTP " +:+ num (http_status urlRes) +:+ ")"))
   else
     data ← json urlRes;
     uploadRes ← s3_reply net;
     if negb (ok uploadRes) then
       Throw (mkError ("S3 upload failed (HTTP " +:+ num (http_status uploadRes) +:+ ")"))
     else Return (image_id data),
   pg).

(** The [catch] block of [startIdentification]. *)
Definition fail (e : Error) (pg : Page) : Page :=
  showError (or_else (message e) "אירעה שגיאה לא ידועה.") pg.

(** [startIdentification]; [selected] says whether a file is selected, and
    [schedule] is what happens once the polling has started.  The result is
    the page after the last event of the schedule. *)
Definition startIdentification (net : Backend) (selected : bool)
    (schedule : list Event) (pg : Page) : Page :=
  if negb selected then pg
  else
    let '(uploaded, pg) := upload net (showState view_status pg) in
    match uploaded with
    | Throw e => fail e pg
    | Return _ => page (poller (run (results net) fail schedule (start pg)))
    end.

(** ** The token helper *)

(** What [cognitoUser.getSession] calls back with: [(err, session)], where a
    session has [isValid()] and the JWT of its ID token. *)
Record CognitoSession : Type := mkCognitoSession {
  isValid : bool;
  jwt : string
}.

Record SessionReply : Type := mkSessionReply {
  err : bool;
  session : option CognitoSession
}.

(** [getIdToken]: [cognitoUser] is [None] when nobody is signed in, else what
    its [getSession] calls back with.  The result is the value the promise
    resolves with and the module variable [idToken] afterwards. *)
Definition getIdToken (cognitoUser : option SessionReply) (idToken : option string)
  : option string * option string :=
  match cognitoUser with
  | None => (None, idToken)
  | Some reply =>
      match err reply, session reply with
      | false, Some sess =>
          if isValid sess then (Some (jwt sess), Some (jwt sess)) else (None, idToken)
      | _, _ => (None, idToken)
      end
  end.

(** [authFetch] from its first line: the token comes from [getIdToken]. *)
Definition authFetchAs {A : Type} (cognitoUser : option SessionReply)
    (idToken : option string) (fetched : Completion (Response A)) (pg : Page)
  : Completion (Response A) * Page :=
  authFetch (fst (getIdToken cognitoUser idToken)) fetched pg.

End App.

(* ===================================================================== *)
(** * mobile/src/services/auth.ts *)
(* ===================================================================== *)

Module Auth.

(** What Amplify's [getCurrentUser] resolves with (the fields read here). *)
Record AuthUser : Type := mkAuthUser {
  userId : string;
  username : string
}.

(** The facade's own result type, [{ email: string }]. *)
Record CurrentUser : Type := mkCurrentUser { email : string }.

Section Facade.

(** Whatever the SDK keeps about the session, and its [getCurrentUser]. *)
Variable Session : Type.
Variable amplifyGetCurrentUser : Session -> Completion AuthUser.

(** [getCurrentUser]: the [try]/[catch] around the SDK call; [None] is
    [null]. *)
Definition getCurrentUser (s : Session) : Completion (option CurrentUser) :=
  match amplifyGetCurrentUser s with
  | Return user => Return (Some (mkCurrentUser (username user)))
  | Throw _ => Return None
  end.

End Facade.

(** ** The other calls of the facade *)

(** The inputs the facade builds for the SDK. *)
Record SignInInput : Type := mkSignInInput {
  signin_username : string;
  signin_password : string
}.

Record SignUpInput : Type := mkSignUpInput {
  signup_username : string;
  signup_password : string;
  signup_email_attribute : string
}.

Record ConfirmSignUpInput : Type := mkConfirmSignUpInput {
  confirm_username : string;
  confirmationCode : string
}.

(** A call into the SDK: [amplifySignIn], [amplifySignUp] or
    [amplifyConfirmSignUp] with its input. *)
Inductive SdkCall : Type :=
| AmplifySignIn (input : SignInInput)
| AmplifySignUp (input : SignUpInput)
| AmplifyConfirmSignUp (input : ConfirmSignUpInput).

Definition signIn_call (email password : string) : SdkCall :=
  AmplifySignIn (mkSignInInput email password).

Definition signUp_call (email password : string) : SdkCall :=
  AmplifySignUp (mkSignUpInput email password email).

Definition confirmSignUp_call (email code : string) : SdkCall :=
  AmplifyConfirmSignUp (mkConfirmSignUpInput email code).

Section Calls.

(** How the SDK answers a call; what it resolves with is dropped by the
    facade. *)
Variable sdk : SdkCall -> Completion unit.

Definition signIn (email password : string) : Completion unit :=
  sdk (signIn_call email password).

Definition signUp (email password : string) : Completion unit :=
  sdk (signUp_call email password).

Definition confirmSignUp (email code : string) : Completion unit :=
  sdk (confirmSignUp_call email code).

End Calls.

End Auth.

(* ===================================================================== *)
(** * infrastracture/*.tf: the declared resources *)
(* ===================================================================== *)

Module Infra.

(** What is only known once the resources exist: the region and account of
    the ARNs and the suffix Terraform appends to [bucket_prefix]. *)
Record Deployment : Type := mkDeployment {
  region : string;
  account_id : string;
  uploads_suffix : string
}.

(** ** sqs.tf *)

Record RedrivePolicy : Type := mkRedrivePolicy {
  deadLetterTargetArn : string;
  maxReceiveCount : Z
}.

(** [resource "aws_sqs_queue"]; an attribute the file leaves out is [None]. *)
Record SqsQueue : Type := mkSqsQueue {
  queue_name : string;
  receive_wait_time_seconds : option Z;
  visibility_timeout_seconds : option Z;
  message_retention_seconds : option Z;
  redrive_policy : option RedrivePolicy
}.

Definition sqs_arn (d : Deployment) (q_name : string) : string :=
  "arn:aws:sqs:" +:+ region d +:+ ":" +:+ account_id d +:+ ":" +:+ q_name.

Definition fish_queue_deadletter : SqsQueue :=
  mkSqsQueue "fish-processing-queue-dlq" None None (Some 1209600) None.

Definition fish_queue (d : Deployment) : SqsQueue :=
  mkSqsQueue "fish-processing-queue" (Some 20) (Some 330) None
    (Some (mkRedrivePolicy (sqs_arn d (queue_name fish_queue_deadletter)) 3)).

(** One statement of a queue policy, with its [ArnLike] conditions. *)
Record Statement : Type := mkStatement {
  Effect : string;
  Principal_Service : string;
  Action : string;
  Resource : string;
  Condition_ArnLike : list (string * string)
}.

Record SqsQueuePolicy : Type := mkSqsQueuePolicy {
  policy_queue : string;
  statements : list Statement
}.

(** ** s3.tf *)

Definition fish_uploads_bucket (d : Deployment) : string :=
  "fish-finder-uploads-" +:+ uploads_suffix d.

Definition s3_arn (bucket_name : string) : string := "arn:aws:s3:::" +:+ bucket_name.

(** [aws_sqs_queue_policy.s3_to_sqs_policy], declared with the queues; it
    names the uploads bucket. *)
Definition s3_to_sqs_policy (d : Deployment) : SqsQueuePolicy :=
  mkSqsQueuePolicy (sqs_arn d (queue_name (fish_queue d)))
    [ mkStatement "Allow" "s3.amazonaws.com" "sqs:SendMessage"
        (sqs_arn d (queue_name (fish_queue d)))
        [ ("aws:SourceArn", s3_arn (fish_uploads_bucket d)) ] ].

(** A [queue { ... }] block of a bucket notification. *)
Record QueueTarget : Type := mkQueueTarget {
  queue_arn : string;
  events : list string;
  filter_prefix : option string;
  filter_suffix : option string
}.

Record BucketNotification : Type := mkBucketNotification {
  bucket : string;
  queue : list QueueTarget
}.

Definition bucket_notification (d : Deployment) : BucketNotification :=
  mkBucketNotification (fish_uploads_bucket d)
    [ mkQueueTarget (sqs_arn d (queue_name (fish_queue d)))
        [ "s3:ObjectCreated:*" ] None None ].

(** ** dynamodb.tf *)

Record DynamoTable : Type := mkDynamoTable {
  table_name : string;
  billing_mode : string;
  hash_key : string;
  range_key : option string;
  attribute : list (string * string)
}.

Definition fish_results : DynamoTable :=
  mkDynamoTable "fish-finder-results" "PAY_PER_REQUEST" "ImageId" None
    [ ("ImageId", "S") ].

End Infra.

(* ===================================================================== *)
(** * The collaborators the declarations configure *)
(* ===================================================================== *)

(** ** Object-write events: from the uploads bucket to the work queue *)

Module Routing.

Import Infra.

(** Wildcard matching of event names and of [ArnLike] patterns: [*] stands
    for any run of characters, [?] for any one. *)
Fixpoint glob (p : string) : string -> bool :=
  match p with
  | EmptyString =>
      fun s => match s with EmptyString => true | String _ _ => false end
  | String c p' =>
      if Ascii.eqb c "*"%char then
        fix star (s : string) : bool :=
          glob p' s
          || match s with EmptyString => false | String _ s' => star s' end
      else
        fun s =>
          match s with
          | EmptyString => false
          | String c' s' => (Ascii.eqb c "?"%char || Ascii.eqb c c') && glob p' s'
          end
  end.

Fixpoint starts_with (pre s : string) : bool :=
  match pre, s with
  | EmptyString, _ => true
  | String a pre', String b s' => Ascii.eqb a b && starts_with pre' s'
  | String _ _, EmptyString => false
  end.

Definition ends_with (suf s : string) : bool :=
  starts_with (String.rev suf) (String.rev s).

(** A successful object write as storage reports it. *)
Record ObjectEvent : Type := mkObjectEvent {
  event_bucket : string;
  eventName : string;
  object_key : string
}.

Definition target_matches (ev : ObjectEvent) (t : QueueTarget) : bool :=
  existsb (fun pat => glob pat (eventName ev)) (events t)
  && from_option (fun pre => starts_with pre (object_key ev)) true (filter_prefix t)
  && from_option (fun suf => ends_with suf (object_key ev)) true (filter_suffix t).

Definition statement_allows (service action resource source_arn : string)
    (st : Statement) : bool :=
  String.eqb (Effect st) "Allow"
  && String.eqb (Principal_Service st) service
  && glob (Action st) action
  && glob (Resource st) resource
  && forallb (fun c => negb (String.eqb (fst c) "aws:SourceArn") || glob (snd c) source_arn)
       (Condition_ArnLike st).

Definition policy_allows (pol : SqsQueuePolicy)
    (service action resource source_arn : string) : bool :=
  String.eqb (policy_queue pol) resource
  && existsb (statement_allows service action resource source_arn) (statements pol).

(** Modelled from the spec: the storage collaborator's hand-over of an
    object-write event (sections 4.2 and 6: an opaque, at-least-once
    trigger), which the repository configures but does not implement.  The
    event goes to each queue target of the bucket's notification whose
    event patterns and key filters match it and whose queue policy lets the
    storage service send; each such hand-over happens once, plus
    [duplicates] repeats.  The result is the list of queues that receive a
    message, one entry per message. *)
Definition deliver (n : BucketNotification) (pol : SqsQueuePolicy)
    (duplicates : nat) (ev : ObjectEvent) : list string :=
  if String.eqb (bucket n) (event_bucket ev) then
    mjoin
      (map (fun t => replicate (S duplicates) (queue_arn t))
         (filter (fun t => target_matches ev t = true
                           ∧ policy_allows pol "s3.amazonaws.com" "sqs:SendMessage"
                               (queue_arn t) (s3_arn (event_bucket ev)) = true)
            (queue n)))
  else [].

(** The messages one write to the uploads bucket puts on the work queue. *)
Definition queue_messages (d : Deployment) (duplicates : nat) (ev : ObjectEvent)
  : list string :=
  filter (fun q => q = sqs_arn d (queue_name (fish_queue d)))
    (deliver (bucket_notification d) (s3_to_sqs_policy d) duplicates ev).

End Routing.

(** ** The durable work queue *)

Module WorkQueue.

Import Infra.

(** [QueueMessage] of the data model; a message is leased exactly while it
    has a [visibility_deadline], and its key in the queue is its lease
    token. *)
Record QueueMessage : Type := mkQueueMessage {
  work_item_id : string;
  delivery_count : Z;
  visibility_deadline : option Z
}.

Record Queue : Type := mkQueue {
  main : gmap nat QueueMessage;
  dead_letter : gmap nat QueueMessage;
  next_id : nat
}.

Definition empty_queue : Queue := mkQueue ∅ ∅ 0.

Inductive Event : Type :=
| ObjectWritten (id : string)
| Receive (m : nat) (now : Z)
| LeaseExpired (m : nat)
| Ack (m : nat).

(** Whether a delivery count is past the queue's retry threshold. *)
Definition exceeds (cfg : SqsQueue) (count : Z) : bool :=
  match redrive_policy cfg with
  | Some rp => maxReceiveCount rp <? count
  | None => false
  end.

(** Modelled from the spec: the queue service behind the queue declaration
    (sections 3 and 4.2), which the repository configures but does not
    implement.  A message is created per object-write event; receiving
    leases a visible message until [now] plus the visibility timeout (30 s,
    the service's default, where the declaration leaves it out);
    [delivery_count] increments each time a lease expires unacknowledged
    (a first delivery counts as 1, so a message delivered twice shows 2, as
    in scenario C); once the count exceeds the threshold of the redrive
    policy the message is moved to the dead-letter area; [Ack] removes a
    leased message for good.  The second component is the message handed to
    a worker, if any. *)
Definition step (cfg : SqsQueue) (q : Queue) (ev : Event)
  : Queue * option (nat * QueueMessage) :=
  match ev with
  | ObjectWritten id =>
      (mkQueue (<[next_id q := mkQueueMessage id 1 None]> (main q))
               (dead_letter q) (S (next_id q)), None)
  | Receive m now =>
      match main q !! m with
      | Some (mkQueueMessage id count None) =>
          let msg := mkQueueMessage id count
                       (Some (now + default 30 (visibility_timeout_seconds cfg))) in
          (mkQueue (<[m := msg]> (main q)) (dead_letter q) (next_id q), Some (m, msg))
      | _ => (q, None)
      end
  | LeaseExpired m =>
      match main q !! m with
      | Some (mkQueueMessage id count (Some _)) =>
          let msg := mkQueueMessage id (count + 1) None in
          if exceeds cfg (count + 1) then
            (mkQueue (delete m (main q)) (<[m := msg]> (dead_letter q)) (next_id q), None)
          else
            (mkQueue (<[m := msg]> (main q)) (dead_letter q) (next_id q), None)
      | _ => (q, None)
      end
  | Ack m =>
      match main q !! m with
      | Some (mkQueueMessage _ _ (Some _)) =>
          (mkQueue (delete m (main q)) (dead_letter q) (next_id q), None)
      | _ => (q, None)
      end
  end.

(** The queue after a sequence of events. *)
Definition run (cfg : SqsQueue) (q : Queue) (evs : list Event) : Queue :=
  foldl (fun q ev => fst (step cfg q ev)) q evs.

(** The lease tokens handed out during a sequence of events, in order. *)
Fixpoint deliveries (cfg : SqsQueue) (q : Queue) (evs : list Event) : list nat :=
  match evs with
  | [] => []
  | ev :: evs' =>
      let '(q', out) := step cfg q ev in
      match out with
      | Some (m, _) => m :: deliveries cfg q' evs'
      | None => deliveries cfg q' evs'
      end
  end.

(** The shape every reachable queue has: a message in circulation is within
    the threshold, a dead-lettered one is past it and out of circulation, and
    no token from [next_id] on is in use. *)
Definition sorted_out (cfg : SqsQueue) (q : Queue) : Prop :=
  (forall m msg, main q !! m = Some msg -> exceeds cfg (delivery_count msg) = false)
  /\ (forall m msg, dead_letter q !! m = Some msg ->
        exceeds cfg (delivery_count msg) = true /\ main q !! m = None)
  /\ (forall m, (next_id q <= m)%nat ->
        main q !! m = None /\ dead_letter q !! m = None).

End WorkQueue.

(** ** The result store *)

Module ResultStore.

Inductive Status : Type := pending | processing | completed | error.

#[global] Instance Status_eq_dec : EqDecision Status.
Proof. solve_decision. Defined.

(** [ResultRecord] of the data model, without its key. *)
Record ResultRecord : Type := mkResultRecord {
  status : Status;
  payload : option string;
  error_detail : option string;
  updated_at : Z
}.

(** Modelled from the spec: the result store (section 4.4) behind the table
    declaration [fish_results], whose hash key is a string attribute; the
    worker and the web backend that call it are not among the sources.
    [PutResult] is a full-record overwrite with no condition. *)
Definition PutResult (work_item_id : string) (record : ResultRecord)
    (store : gmap string ResultRecord) : gmap string ResultRecord :=
  <[work_item_id := record]> store.

(** Modelled from the spec: [GetStatus] (section 4.4); [None] is
    [NotFound]. *)
Definition GetStatus (work_item_id : string) (store : gmap string ResultRecord)
  : option ResultRecord :=
  store !! work_item_id.

(** An absent record is an implicit [pending]. *)
Definition status_of (r : option ResultRecord) : Status :=
  from_option status pending r.





End ResultStore.

(** ** The worker's writes *)

Module Worker.

Import ResultStore.

(** Modelled from the spec: what the classification capability makes of an
    object's bytes (sections 4.3 and 7): a payload, or a permanent processing
    error with its detail (a corrupt image, an exception of the
    capability). *)
Inductive Inference : Type :=
| Classified (payload : string)
| Undecodable (detail : string).

(** Modelled from the spec: how one delivery of a work item's message goes
    for the worker holding it (sections 4.3 and 5).  The fetch fails, a
    transient error: nothing is written or acknowledged.  The worker is
    killed before it persists anything, its time budget used up.  The record
    is written at time [now] and the message acknowledged.  The record is
    written and the worker is lost before the acknowledgment. *)
Inductive Attempt : Type :=
| FetchFailed
| KilledBeforeWrite
| Processed (now : Z)
| CrashedAfterWrite (now : Z).

Section Processing.

(** Modelled from the spec: the classification capability, "a pure function
    of the object bytes" (section 4.3); the worker's code is not among the
    sources. *)
Variable classify : string -> Inference.

(** Modelled from the spec: the terminal record a worker persists for an
    object (section 4.3): [completed] with the payload on success, [error]
    with the detail on an inference failure. *)
Definition outcome (bytes : string) (now : Z) : ResultRecord :=
  match classify bytes with
  | Classified payload => mkResultRecord completed (Some payload) None now
  | Undecodable detail => mkResultRecord error None (Some detail) now
  end.


(** Modelled from the spec: one delivery handled by a worker (section 4.3,
    [Received], [Fetching], [Inferring], [Persisting], [Acking]).  The result
    is the store afterwards and whether the message was acknowledged.  The
    bytes are those of the stored object, immutable once written
    (section 3). *)
Definition process (work_item_id bytes : string) (a : Attempt)
    (store : gmap string ResultRecord) : gmap string ResultRecord * bool :=
  match a with
  | FetchFailed | KilledBeforeWrite => (store, false)
  | Processed now => (PutResult work_item_id (outcome bytes now) store, true)
  | CrashedAfterWrite now => (PutResult work_item_id (outcome bytes now) store, false)
  end.


(** The status [GetStatus] shows for the work item after each delivery. *)
Fixpoint history (work_item_id bytes : string) (attempts : list Attempt)
    (store : gmap string ResultRecord) : list Status :=
  match attempts with
  | [] => []
  | a :: rest =>
      let store' := fst (process work_item_id bytes a store) in
      status_of (GetStatus work_item_id store')
        :: history work_item_id bytes rest store'
  end.

End Processing.

End Worker.

(* ===================================================================== *)
(** * The client poll protocol, as the specification words it *)
(* ===================================================================== *)

Module PollProtocol.

(** How a client is to treat one poll response. *)
Inductive PollClass : Type := TerminalSuccess | TerminalError | ContinuePolling.

#[global] Instance PollClass_eq_dec : EqDecision PollClass.
Proof. solve_decision. Defined.

(** The transition rules of section 4.5, on the status string of a
    response: [completed] ends in [done], [error] ends in [error], anything
    else ([pending], [processing], a missing record) keeps polling. *)
Definition spec_class (status : string) : PollClass :=
  if String.eqb status "completed" then TerminalSuccess
  else if String.eqb status "error" then TerminalError
  else ContinuePolling.

(** A well-received response carrying [data]. *)
Definition reply {A : Type} (data : A) : Completion (Response A) :=
  Return (mkResponse true 200 EmptyString (Return data)).

(** The mobile loop's treatment of a well-received response. *)
Definition mobile_class (data : Api.PollResponse) : PollClass :=
  match Api.pollAttempt (reply data) with
  | Api.Resolve _ => TerminalSuccess
  | Api.Reject _ => TerminalError
  | Api.Continue => ContinuePolling
  end.

(** The webapp loop's treatment of a well-received response while attempts
    remain ([attempts] below the limit). *)
Definition webapp_class (attempts : Z) (data : App.ResultsData) : PollClass :=
  match App.pollAttempt attempts (reply data) with
  | App.Ready _ => TerminalSuccess
  | App.Failed _ => TerminalError
  | App.Pending | App.TimedOut => ContinuePolling
  end.

End PollProtocol.

(* ===================================================================== *)
(** * mobile/App.tsx *)
(* ===================================================================== *)

Module Root.

Inductive AuthState : Type := loading | authenticated | unauthenticated.

(** What the root component renders. *)
Inductive Shown : Type := Spinner | SignInScreen | HomeStack.

Section Mount.

Variable Session : Type.
Variable amplifyGetCurrentUser : Session -> Completion Auth.AuthUser.

(** The effect run on mount: [getCurrentUser], then
    [user ? 'authenticated' : 'unauthenticated'], with [unauthenticated] in
    the [catch]. *)
Definition checkAuth (s : Session) : AuthState :=
  match Auth.getCurrentUser Session amplifyGetCurrentUser s with
  | Return (Some _) => authenticated
  | Return None => unauthenticated
  | Throw _ => unauthenticated
  end.

End Mount.

Definition render (a : AuthState) : Shown :=
  match a with
  | loading => Spinner
  | unauthenticated => SignInScreen
  | authenticated => HomeStack
  end.

End Root.

(* ===================================================================== *)
(** * mobile/src/screens/AuthScreen.tsx *)
(* ===================================================================== *)

Module AuthScreen.

Inductive AuthMode : Type := signin | signup | confirm.

#[global] Instance AuthMode_eq_dec : EqDecision AuthMode.
Proof. solve_decision. Defined.

(** The component state. *)
Record Form : Type := mkForm {
  mode : AuthMode;
  email : string;
  password : string;
  code : string;
  loading : bool;
  error : option string
}.

Definition setError (e : option string) (f : Form) : Form :=
  mkForm (mode f) (email f) (password f) (code f) (loading f) e.

Definition setLoading (b : bool) (f : Form) : Form :=
  mkForm (mode f) (email f) (password f) (code f) b (error f).

Definition setMode (m : AuthMode) (f : Form) : Form :=
  mkForm m (email f) (password f) (code f) (loading f) (error f).

Definition setCode (c : string) (f : Form) : Form :=
  mkForm (mode f) (email f) (password f) c (loading f) (error f).

(** What one submit did: the form afterwards, the SDK calls made, in order,
    and whether [onAuthSuccess] was called. *)
Record Submitted : Type := mkSubmitted {
  form : Form;
  calls : list Auth.SdkCall;
  authSuccess : bool
}.

(** [handleToggle] *)
Definition handleToggle (f : Form) : Form :=
  setMode (if bool_decide (mode f = signin) then signup else signin)
    (setCode EmptyString (setError None f)).

Section HandleSubmit.

(** [String.prototype.trim] and [.length]. *)
Variable trim : string -> string.
Variable length : string -> Z.

Variable sdk : Auth.SdkCall -> Completion unit.

(** The [try] block of [handleSubmit] with its [catch]: the form, the calls
    made and whether [onAuthSuccess] was called. *)
Definition attempt (f : Form) : Submitted :=
  match mode f with
  | signin =>
      match Auth.signIn sdk (trim (email f)) (password f) with
      | Return _ =>
          mkSubmitted f [Auth.signIn_call (trim (email f)) (password f)] true
      | Throw e =>
          mkSubmitted (setError (Some (message e)) f)
            [Auth.signIn_call (trim (email f)) (password f)] false
      end
  | signup =>
      match Auth.signUp sdk (trim (email f)) (password f) with
      | Return _ =>
          mkSubmitted (setMode confirm f)
            [Auth.signUp_call (trim (email f)) (password f)] false
      | Throw e =>
          mkSubmitted (setError (Some (message e)) f)
            [Auth.signUp_call (trim (email f)) (password f)] false
      end
  | confirm =>
      match Auth.confirmSignUp sdk (trim (email f)) (trim (code f)) with
      | Throw e =>
          mkSubmitted (setError (Some (message e)) f)
            [Auth.confirmSignUp_call (trim (email f)) (trim (code f))] false
      | Return _ =>
          match Auth.signIn sdk (trim (email f)) (password f) with
          | Return _ =>
              mkSubmitted f
                [Auth.confirmSignUp_call (trim (email f)) (trim (code f));
                 Auth.signIn_call (trim (email f)) (password f)] true
          | Throw e =>
              mkSubmitted (setError (Some (message e)) f)
                [Auth.confirmSignUp_call (trim (email f)) (trim (code f));
                 Auth.signIn_call (trim (email f)) (password f)] false
          end
      end
  end.

(** [handleSubmit]: the three checks, then the [try] between
    [setLoading(true)] and the [finally]. *)
Definition handleSubmit (f : Form) : Submitted :=
  let f := setError None f in
  if String.eqb (trim (email f)) EmptyString then
    mkSubmitted (setError (Some "Please enter your email address.") f) [] false
  else if negb (bool_decide (mode f = confirm)) && (length (password f) <? 8) then
    mkSubmitted (setError (Some "Password must be at least 8 characters.") f) [] false
  else if bool_decide (mode f = confirm) && negb (length (trim (code f)) =? 6) then
    mkSubmitted (setError (Some "Please enter the 6-digit verification code.") f) [] false
  else
    let done := attempt (setLoading true f) in
    mkSubmitted (setLoading false (form done)) (calls done) (authSuccess done).

End HandleSubmit.

End AuthScreen.

(* ===================================================================== *)
(** * Concrete responses and screens *)
(* ===================================================================== *)

Module Samples.

Import PollProtocol.

Definition dennis : Api.FishResult :=
  Api.mkFishResult "Sparus aurata" "Denis" true "Stable" 35 20 None
    "Common, also farmed." "A sea bream of sandy and rocky bottoms.".

(** Mobile responses. *)
Definition pending_data : Api.PollResponse := Api.mkPollResponse "pending" None None.
Definition ready_data : Api.PollResponse := Api.mkPollResponse "ready" (Some dennis) None.
Definition completed_data : Api.PollResponse :=
  Api.mkPollResponse "completed" (Some dennis) None.
Definition completed_empty : Api.PollResponse :=
  Api.mkPollResponse "completed" None None.
Definition error_data (detail : string) : Api.PollResponse :=
  Api.mkPollResponse "error" None (Some detail).

(** A server that answers every request the same way. *)
Definition always {A : Type} (data : A) : Z -> Completion (Response A) :=
  fun _ => reply data.

(** A server that answers [last] at request [k] and [first] before. *)
Definition switch_at {A : Type} (k : Z) (first last : A)
  : Z -> Completion (Response A) :=
  fun n => if n <? k then reply first else reply last.

(** Webapp responses. *)
Definition web_data (status : string) : App.ResultsData :=
  App.mkResultsData status "Denis" "Sparus aurata" "native" "common" 35 0
    "Common, also farmed." "A sea bream." false.

Definition page0 : App.Page := App.mkPage false App.view_status EmptyString None.

(** The home screen with a photo chosen, and a backend whose upload steps
    succeed. *)
Definition screen0 : HomeScreen.Screen :=
  HomeScreen.mkScreen (Some "file:///fish.jpg") HomeScreen.idle None None [].

Definition grant : Api.UploadUrlResponse :=
  Api.mkUploadUrlResponse "uploads/3f7a.jpg" "https://bucket.s3.amazonaws.com/" [].

Definition backend (results : Z -> Completion (Response Api.PollResponse))
  : HomeScreen.Backend :=
  HomeScreen.mkBackend (reply grant)
    (Return (mkResponse true 204 EmptyString (Return tt))) results.

(** A deployment, and the life of a message whose lease runs out each of the
    three times it is delivered. *)
Definition deployment : Infra.Deployment :=
  Infra.mkDeployment "eu-north-1" "123456789012" "20240101000000000000000001".

Definition three_expiries : list WorkQueue.Event :=
  [ WorkQueue.ObjectWritten "uploads/3f7a.jpg";
    WorkQueue.Receive 0 0; WorkQueue.LeaseExpired 0;
    WorkQueue.Receive 0 400; WorkQueue.LeaseExpired 0;
    WorkQueue.Receive 0 800; WorkQueue.LeaseExpired 0 ].

(** An SDK whose session is the signed-in user, if any; with none its
    [getCurrentUser] throws. *)
Definition amplify (session : option Auth.AuthUser) : Completion Auth.AuthUser :=
  match session with
  | Some user => Return user
  | None => Throw (mkError "UserUnAuthenticatedException: User needs to be authenticated.")
  end.

Definition fisher : Auth.AuthUser := Auth.mkAuthUser "7c1e" "fisher@example.com".

(** A server that answers [first] before request [k] and comes back with
    [bad] from then on. *)
Definition failing_at {A : Type} (k : Z) (first : A) (bad : Completion (Response A))
  : Z -> Completion (Response A) :=
  fun n => if n <? k then reply first else bad.

(** A 503 whose body would read as a completed result. *)
Definition unavailable : Response Api.PollResponse :=
  mkResponse false 503 "Service Unavailable" (Return completed_data).

Definition web_unavailable : Response App.ResultsData :=
  mkResponse false 503 "Service Unavailable" (Return (web_data "ready")).

(** Lower-casing and trimming of plain ASCII text. *)
Definition lower_char (c : ascii) : ascii :=
  let n := nat_of_ascii c in
  if (65 <=? n)%nat && (n <=? 90)%nat then ascii_of_nat (n + 32) else c.

Fixpoint lower (s : string) : string :=
  match s with
  | EmptyString => EmptyString
  | String c rest => String (lower_char c) (lower rest)
  end.

Fixpoint drop_spaces (s : string) : string :=
  match s with
  | String c rest => if Ascii.eqb c " "%char then drop_spaces rest else s
  | EmptyString => EmptyString
  end.

Definition trim (s : string) : string :=
  String.rev (drop_spaces (String.rev (drop_spaces s))).

Definition text_length (s : string) : Z := Z.of_nat (String.length s).

(** SDKs: one that accepts every call, one that turns every sign-in down. *)
Definition sdk_accepts : Auth.SdkCall -> Completion unit := fun _ => Return tt.

Definition sdk_refuses_sign_in : Auth.SdkCall -> Completion unit :=
  fun call =>
    match call with
    | Auth.AmplifySignIn _ => Throw (mkError "Incorrect username or password.")
    | _ => Return tt
    end.

(** The sign-up form on its confirmation step, and a sign-in form with a
    short password. *)
Definition confirm_form : AuthScreen.Form :=
  AuthScreen.mkForm AuthScreen.confirm " fisher@example.com " "Sardine-2024"
    "123456" false None.

Definition short_password_form : AuthScreen.Form :=
  AuthScreen.mkForm AuthScreen.signin "fisher@example.com" "sardine" EmptyString
    false (Some "Incorrect username or password.").

(** A web backend whose upload steps succeed, for a signed-in user. *)
Definition web_backend (results : Z -> Completion (Response App.ResultsData))
  : App.Backend :=
  App.mkBackend (Some "jwt")
    (reply (App.mkUploadUrlData "uploads/3f7a.jpg" "https://bucket.s3.amazonaws.com/" []))
    (Return (mkResponse true 204 EmptyString (Return tt)))
    (App.signed_in results).

(** A results endpoint that turns the first request down with a 401 and
    answers [ready] to the others. *)
Definition late_401 : Z -> Completion (Response App.ResultsData) :=
  fun n =>
    if n =? 1
    then Return (mkResponse false 401 "Unauthorized" (Return (web_data "pending")))
    else reply (web_data "ready").

(** The second request is answered before the first. *)
Definition second_answer_first : list App.Event :=
  [App.Tick; App.Tick; App.Reply 2; App.Reply 1].

(** Forty-one ticks go by before the first answer is in. *)
Definition slow_first_answer : list App.Event :=
  replicate 41 App.Tick ++ [App.Reply 1].

(** A poll in its third interval with the third request out, on a page
    showing the status section. *)
Definition polling : App.Machine :=
  App.mkMachine (App.mkPoller 3 None (App.setTimer true page0) 9000) [3].

(** A classification capability: bytes that start like a JPEG are a sea
    bream, anything else does not decode. *)
Definition classify : string -> Worker.Inference :=
  fun bytes =>
    if String.prefix "JFIF" bytes then Worker.Classified "Sparus aurata"
    else Worker.Undecodable "cannot decode image".

(** A message delivered five times: a failed fetch, a worker killed before
    its write, a worker lost after its write, and two workers that finish. *)
Definition deliveries : list Worker.Attempt :=
  [ Worker.FetchFailed; Worker.KilledBeforeWrite;
    Worker.CrashedAfterWrite 1700000060;
    Worker.Processed 1700000400; Worker.Processed 1700000410 ].

End Samples.

(* ===================================================================== *)
(** * Properties of the mobile poll loop *)
(* ===================================================================== *)

Section MobileLoop.

Import Api.

Variable fetch : Z -> Completion (Response PollResponse).
Variable maxAttempts : Z.

Local Abbreviation pollFrom := (Api.pollFrom fetch maxAttempts).
Local Abbreviation Ending := (Api.Ending fetch maxAttempts).

(** The loop, one turn unfolded. *)
Lemma pollFrom_unfold (attempt sent slept : Z) :
  pollFrom attempt sent slept =
  if decide (attempt <= maxAttempts) then
    match pollAttempt (fetch attempt) with
    | Resolve r => mkPollRun (Return r) (sent + 1) slept
    | Reject e => mkPollRun (Throw e) (sent + 1) slept
    | Continue =>
        if decide (attempt < maxAttempts)
        then pollFrom (attempt + 1) (sent + 1) (slept + POLL_INTERVAL_MS)
        else pollFrom (attempt + 1) (sent + 1) slept
    end
  else mkPollRun (Throw (timeout_error maxAttempts)) sent slept.
Proof.
  rewrite pollFrom_equation_1.
  destruct (decide (attempt <= maxAttempts)); reflexivity.
Qed.

Lemma pollFrom_exit (attempt sent slept : Z) :
  maxAttempts < attempt ->
  pollFrom attempt sent slept =
  mkPollRun (Throw (timeout_error maxAttempts)) sent slept.
Proof.
  intros H. rewrite pollFrom_unfold.
  destruct (decide (attempt <= maxAttempts)); [lia | reflexivity].
Qed.

(** A non-terminal turn hands over to the next attempt, after a [delay] when
    it is not the last. *)
Lemma pollFrom_continue (attempt sent slept : Z) :
  attempt <= maxAttempts ->
  pollAttempt (fetch attempt) = Continue ->
  pollFrom attempt sent slept =
  if decide (attempt < maxAttempts)
  then pollFrom (attempt + 1) (sent + 1) (slept + POLL_INTERVAL_MS)
  else mkPollRun (Throw (timeout_error maxAttempts)) (sent + 1) slept.
Proof.
  intros Hle Hc. rewrite pollFrom_unfold, Hc.
  destruct (decide (attempt <= maxAttempts)); [|lia].
  destruct (decide (attempt < maxAttempts)); [reflexivity|].
  apply pollFrom_exit. lia.
Qed.

(** Skipping a run of non-terminal turns. *)
Lemma pollFrom_skip (n : nat) (attempt sent slept : Z) :
  attempt + Z.of_nat n <= maxAttempts ->
  (forall i, attempt <= i < attempt + Z.of_nat n -> pollAttempt (fetch i) = Continue) ->
  pollFrom attempt sent slept =
  pollFrom (attempt + Z.of_nat n) (sent + Z.of_nat n)
           (slept + POLL_INTERVAL_MS * Z.of_nat n).
Proof.
  revert attempt sent slept.
  induction n as [|n IH]; intros attempt sent slept Hle Hc.
  - f_equal; lia.
  - rewrite pollFrom_continue by (try apply Hc; lia).
    destruct (decide (attempt < maxAttempts)); [|lia].
    rewrite IH by (try (intros i Hi; apply Hc); lia).
    f_equal; lia.
Qed.

Lemma pollFrom_ending (attempt sent slept : Z) :
  Ending attempt sent slept (pollFrom attempt sent slept).
Proof.
  remember (Z.to_nat (maxAttempts + 1 - attempt)) as n eqn:Hn.
  revert attempt sent slept Hn.
  induction n as [|n IH]; intros attempt sent slept Hn.
  - apply ends_timed_out; [intros i Hi; lia|].
    rewrite pollFrom_exit by lia. f_equal; unfold POLL_INTERVAL_MS; lia.
  - assert (Hle : attempt <= maxAttempts) by lia.
    destruct (pollAttempt (fetch attempt)) as [r|e|] eqn:Hstep.
    + apply (ends_resolved _ _ _ _ _ _ attempt r); [lia|intros; lia|assumption|].
      rewrite pollFrom_unfold, Hstep.
      destruct (decide (attempt <= maxAttempts)); [|lia]. f_equal; unfold POLL_INTERVAL_MS; lia.
    + apply (ends_rejected _ _ _ _ _ _ attempt e); [lia|intros; lia|assumption|].
      rewrite pollFrom_unfold, Hstep.
      destruct (decide (attempt <= maxAttempts)); [|lia]. f_equal; unfold POLL_INTERVAL_MS; lia.
    + rewrite pollFrom_continue by assumption.
      destruct (decide (attempt < maxAttempts)) as [Hlt|Hge].
      * assert (Hn' : n = Z.to_nat (maxAttempts + 1 - (attempt + 1))) by lia.
        destruct (IH (attempt + 1) (sent + 1) (slept + POLL_INTERVAL_MS) Hn')
          as [k r Hk Hc Hr Heq|k e Hk Hc Hr Heq|Hc Heq].
        -- apply (ends_resolved _ _ _ _ _ _ k r); [lia| |assumption|].
           ++ intros i Hi. destruct (decide (i = attempt)) as [->|]; [assumption|].
              apply Hc; lia.
           ++ rewrite Heq. f_equal; unfold POLL_INTERVAL_MS; lia.
        -- apply (ends_rejected _ _ _ _ _ _ k e); [lia| |assumption|].
           ++ intros i Hi. destruct (decide (i = attempt)) as [->|]; [assumption|].
              apply Hc; lia.
           ++ rewrite Heq. f_equal; unfold POLL_INTERVAL_MS; lia.
        -- apply ends_timed_out.
           ++ intros i Hi. destruct (decide (i = attempt)) as [->|]; [assumption|].
              apply Hc; lia.
           ++ rewrite Heq. f_equal; unfold POLL_INTERVAL_MS; lia.
      * apply ends_timed_out.
        -- intros i Hi. assert (i = attempt) as -> by lia. assumption.
        -- f_equal; unfold POLL_INTERVAL_MS; lia.
Qed.

End MobileLoop.

(* ===================================================================== *)
(** * Properties of the webapp poll loop *)
(* ===================================================================== *)

Section WebappLoop.

Import App.

Variable requests : Z -> Request.
Variable caught : Error -> Page -> Page.

(** The caller's reaction leaves the interval alone. *)
Hypothesis caught_timer : forall e pg, pollTimer (caught e pg) = pollTimer pg.

Local Abbreviation onReply := (App.onReply requests caught).
Local Abbreviation deliver := (App.deliver requests caught).
Local Abbreviation run := (App.run requests caught).

(** A response is [Pending] only while attempts remain, and the attempt
    limit is only reported at or after the limit. *)
Lemma pollAttempt_Pending_lt (k : Z) fetched :
  pollAttempt k fetched = Pending -> k < POLL_MAX_ATTEMPTS.
Proof.
  unfold pollAttempt. destruct fetched as [res|e]; [|discriminate].
  destruct (negb (ok res)); [discriminate|].
  destruct (json res) as [data|e]; [|discriminate].
  destruct (String.eqb (status data) "ready"); [discriminate|].
  destruct (Z.leb_spec POLL_MAX_ATTEMPTS k); [discriminate|]. intros _; assumption.
Qed.

Lemma pollAttempt_TimedOut_ge (k : Z) fetched :
  pollAttempt k fetched = TimedOut -> POLL_MAX_ATTEMPTS <= k.
Proof.
  unfold pollAttempt. destruct fetched as [res|e]; [|discriminate].
  destruct (negb (ok res)); [discriminate|].
  destruct (json res) as [data|e]; [|discriminate].
  destruct (String.eqb (status data) "ready"); [discriminate|].
  destruct (Z.leb_spec POLL_MAX_ATTEMPTS k); [|discriminate]. intros _; assumption.
Qed.

(** Only a response makes the callback go on polling. *)
Lemma pollAttempt_Pending_Return (k : Z) fetched :
  pollAttempt k fetched = Pending -> exists res, fetched = Return res.
Proof.
  destruct fetched as [res|e]; [eauto|discriminate].
Qed.

(** [authFetch] hands a response back only with the page untouched. *)
Lemma authFetch_Return {A : Type} (token : option string)
    (fetched : Completion (Response A)) (pg pg' : Page) (res : Response A) :
  authFetch token fetched pg = (Return res, pg') ->
  pg' = pg /\ is_Some (truthy token) /\ fetched = Return res /\ http_status res <> 401.
Proof.
  unfold authFetch. destruct (truthy token) as [t|]; [|discriminate].
  destruct fetched as [r|e]; [|discriminate].
  destruct (Z.eqb_spec (http_status r) 401); [discriminate|].
  intros [= <- <-]. eauto.
Qed.

(** The logout click leaves the interval alone. *)
Lemma authFetch_pollTimer {A : Type} (token : option string)
    (fetched : Completion (Response A)) (pg : Page) :
  pollTimer (snd (authFetch token fetched pg)) = pollTimer pg.
Proof.
  unfold authFetch. destruct (truthy token); [|reflexivity].
  destruct fetched as [r|e]; [|reflexivity].
  destruct (http_status r =? 401); reflexivity.
Qed.

(** The callback's second half leaves the counter and the clock alone. *)
Lemma onReply_attempts (n : Z) (p : Poller) :
  attempts (onReply n p) = attempts p /\ waited_ms (onReply n p) = waited_ms p.
Proof.
  unfold App.onReply.
  destruct (authFetch (id_token (requests n)) (reply (requests n)) (page p)) as [res pg].
  destruct (pollAttempt (attempts p) res); split; reflexivity.
Qed.

(** What the callback's second half does to the interval and the promise. *)
Lemma onReply_cases (n : Z) (p : Poller) :
  (pollTimer (page (onReply n p)) = false /\ is_Some (settled (onReply n p)))
  \/ (attempts p < POLL_MAX_ATTEMPTS
      /\ pollTimer (page (onReply n p)) = pollTimer (page p)
      /\ settled (onReply n p) = settled p).
Proof.
  unfold App.onReply.
  destruct (authFetch (id_token (requests n)) (reply (requests n)) (page p))
    as [res pg] eqn:Ha.
  destruct (pollAttempt (attempts p) res) as [data| | |e] eqn:Hv; simpl.
  - left. split; [reflexivity|]. destruct (settled p); simpl; eauto.
  - left. unfold App.rejected; simpl. split.
    + destruct (settled p); [reflexivity|]. rewrite caught_timer. reflexivity.
    + destruct (settled p); simpl; eauto.
  - right. split; [exact (pollAttempt_Pending_lt _ _ Hv)|].
    destruct (pollAttempt_Pending_Return _ _ Hv) as [r ->].
    apply authFetch_Return in Ha. destruct Ha as (-> & _). split; reflexivity.
  - left. unfold App.rejected; simpl. split.
    + destruct (settled p); [reflexivity|]. rewrite caught_timer. reflexivity.
    + destruct (settled p); simpl; eauto.
Qed.

(** An answer that comes at or after the limit ends the poll. *)
Lemma onReply_at_limit (n : Z) (p : Poller) :
  POLL_MAX_ATTEMPTS <= attempts p ->
  pollTimer (page (onReply n p)) = false /\ is_Some (settled (onReply n p)).
Proof.
  intros Hle. destruct (onReply_cases n p) as [H|(Hlt & _)]; [exact H|lia].
Qed.

Lemma deliver_well_formed (m : Machine) (ev : Event) :
  well_formed m -> well_formed (deliver m ev).
Proof.
  intros Hm. pose proof Hm as (Hset & Hpos & Hwait & Hout).
  destruct ev as [|n]; simpl.
  - destruct (pollTimer (page (poller m))) eqn:Hon; [|exact Hm].
    unfold well_formed; simpl. split; [|split; [|split]].
    + tauto.
    + lia.
    + rewrite Hwait. unfold POLL_INTERVAL_MS. lia.
    + apply Forall_app. split.
      * eapply Forall_impl; [exact Hout|]. simpl. intros; lia.
      * apply Forall_cons. split; [lia|constructor].
  - destruct (bool_decide (n ∈ unanswered m)); [|exact Hm].
    destruct (onReply_attempts n (poller m)) as [Ha Hw].
    unfold well_formed; simpl. rewrite Ha, Hw.
    split; [|split; [assumption|split; [assumption|]]].
    + destruct (onReply_cases n (poller m)) as [(Hoff & Hsome)|(_ & Ht & Hs)].
      * rewrite Hoff. split; [discriminate|].
        intros Hnone. rewrite Hnone in Hsome. destruct Hsome; discriminate.
      * rewrite Ht, Hs. exact Hset.
    + apply Forall_forall. intros i Hi. apply list_elem_of_filter in Hi as [_ Hi].
      rewrite Forall_forall in Hout. apply Hout, Hi.
Qed.

Lemma run_well_formed (schedule : list Event) (m : Machine) :
  well_formed m -> well_formed (run schedule m).
Proof.
  revert m. induction schedule as [|ev rest IH]; intros m Hm; simpl; [assumption|].
  apply IH, deliver_well_formed, Hm.
Qed.

Lemma start_well_formed (pg : Page) : well_formed (start pg).
Proof.
  unfold well_formed, start; simpl. repeat split; try lia. constructor.
Qed.

(** With the interval cleared and no request out, nothing happens any more. *)
Lemma run_at_rest (schedule : list Event) (m : Machine) :
  pollTimer (page (poller m)) = false -> unanswered m = [] -> run schedule m = m.
Proof.
  intros Hoff Hout. induction schedule as [|ev rest IH]; simpl; [reflexivity|].
  destruct ev as [|n]; simpl.
  - rewrite Hoff. exact IH.
  - rewrite Hout. rewrite bool_decide_eq_false_2 by (apply not_elem_of_nil). exact IH.
Qed.

(** One round of the prompt schedule: a tick, and its request answered. *)
Lemma deliver_round (m : Machine) :
  pollTimer (page (poller m)) = true -> unanswered m = [] ->
  deliver (deliver m Tick) (Reply (attempts (poller m) + 1))
  = mkMachine (onReply (attempts (poller m) + 1) (onTick (poller m))) [].
Proof.
  intros Hon Hout. simpl. rewrite Hon, Hout. simpl.
  rewrite bool_decide_eq_true_2 by (apply list_elem_of_singleton; reflexivity).
  f_equal. rewrite filter_cons_False by tauto. reflexivity.
Qed.

(** When every answer is in before the next tick, the poll either has ended,
    at or before the limit, or every round so far left it polling. *)
Lemma run_promptly (rounds a : nat) (m : Machine) :
  pollTimer (page (poller m)) = true -> unanswered m = [] ->
  attempts (poller m) = Z.of_nat a ->
  let m' := run (flat_map (fun i => [Tick; Reply (Z.of_nat i)]) (seq (S a) rounds)) m in
  unanswered m' = []
  /\ ((pollTimer (page (poller m')) = false
       /\ Z.of_nat a < attempts (poller m') <= Z.max (Z.of_nat a + 1) POLL_MAX_ATTEMPTS)
      \/ (pollTimer (page (poller m')) = true
          /\ attempts (poller m') = Z.of_nat (a + rounds)
          /\ (rounds <> 0%nat -> attempts (poller m') < POLL_MAX_ATTEMPTS))).
Proof.
  revert a m. induction rounds as [|rounds IH]; intros a m Hon Hout Ha.
  - simpl. split; [assumption|]. right. split; [assumption|].
    split; [rewrite Ha; f_equal; lia|congruence].
  - cbv zeta.
    change (run (flat_map (fun i => [Tick; Reply (Z.of_nat i)]) (seq (S a) (S rounds))) m)
      with (run (flat_map (fun i => [Tick; Reply (Z.of_nat i)]) (seq (S (S a)) rounds))
              (deliver (deliver m Tick) (Reply (Z.of_nat (S a))))).
    replace (Z.of_nat (S a)) with (attempts (poller m) + 1) by lia.
    rewrite (deliver_round m Hon Hout).
    set (m1 := mkMachine (onReply (attempts (poller m) + 1) (onTick (poller m))) []).
    destruct (onReply_attempts (attempts (poller m) + 1) (onTick (poller m)))
      as [Ha1 _].
    assert (Hatt : attempts (poller m1) = Z.of_nat (S a)) by (simpl; rewrite Ha1; simpl; lia).
    destruct (onReply_cases (attempts (poller m) + 1) (onTick (poller m)))
      as [(Hoff & _)|(Hlt & Ht & _)].
    + rewrite (run_at_rest _ m1 Hoff eq_refl).
      split; [reflexivity|]. left. split; [exact Hoff|]. rewrite Hatt. lia.
    + simpl in Hlt, Ht. rewrite Hon in Ht.
      destruct (IH (S a) m1 Ht eq_refl Hatt) as (Hout' & [(Hoff & Hb)|(Hon' & Hb & Hc)]).
      * split; [exact Hout'|]. left. split; [exact Hoff|].
        unfold POLL_MAX_ATTEMPTS in *. lia.
      * split; [exact Hout'|]. right. split; [exact Hon'|].
        split; [rewrite Hb; f_equal; lia|]. intros _.
        destruct rounds as [|r]; [|apply Hc; congruence].
        rewrite Hb. unfold POLL_MAX_ATTEMPTS in *. lia.
Qed.

End WebappLoop.

(* ===================================================================== *)
(** * One poll response *)
(* ===================================================================== *)

Section OneResponse.

Import Api.

Variable response : Response PollResponse.
Variable data : PollResponse.
Hypothesis Hok : ok response = true.
Hypothesis Hjson : json response = Return data.

Lemma pollAttempt_completed (r : FishResult) :
  status data = "completed" -> result data = Some r ->
  pollAttempt (Return response) = Resolve r.
Proof.
  intros Hs Hr. unfold pollAttempt. rewrite Hok, Hjson, Hs, Hr. reflexivity.
Qed.

Lemma pollAttempt_completed_no_result :
  status data = "completed" -> result data = None ->
  pollAttempt (Return response) = Continue.
Proof.
  intros Hs Hr. unfold pollAttempt. rewrite Hok, Hjson, Hs, Hr. reflexivity.
Qed.

Lemma pollAttempt_error :
  status data = "error" ->
  pollAttempt (Return response)
  = Reject (mkError (nullish (error data) "Fish identification failed on the server.")).
Proof.
  intros Hs. unfold pollAttempt. rewrite Hok, Hjson, Hs. simpl.
  destruct (result data); reflexivity.
Qed.


End OneResponse.

Section OneWebResponse.

Import App.

Variable res : Response ResultsData.
Variable data : ResultsData.
Hypothesis Hok : ok res = true.
Hypothesis Hjson : json res = Return data.

Lemma web_pollAttempt_ready (attempts : Z) :
  status data = "ready" -> pollAttempt attempts (Return res) = Ready data.
Proof.
  intros Hs. unfold pollAttempt. rewrite Hok, Hjson, Hs. reflexivity.
Qed.

Lemma web_pollAttempt_other (attempts : Z) :
  status data <> "ready" ->
  pollAttempt attempts (Return res)
  = if POLL_MAX_ATTEMPTS <=? attempts then TimedOut else Pending.
Proof.
  intros Hs. unfold pollAttempt. rewrite Hok, Hjson. simpl.
  apply String.eqb_neq in Hs. rewrite Hs. reflexivity.
Qed.

End OneWebResponse.

(* ===================================================================== *)
(** * The identify flow of the home screen *)
(* ===================================================================== *)

Section IdentifyFlow.

Import Api HomeScreen.

Variable net : Backend.
Variable scr : Screen.
Variable uri : string.
Variable grant : UploadUrlResponse.
Hypothesis Himage : imageUri scr = Some uri.
Hypothesis Huri : uri <> EmptyString.
Hypothesis Hgrant : getUploadUrl (upload_url_reply net) = Return grant.
Hypothesis Hupload : uploadToS3 (s3_reply net) = Return tt.

(** Once the upload went through, the screen is in [processing] for the
    whole of the polling and then takes the state the poll outcome gives. *)
Lemma handleIdentify_polls :
  handleIdentify net scr =
  match outcome (pollResults (results_reply net) default_maxAttempts) with
  | Return r =>
      mkScreen (Some uri) done None (Some r)
               (history scr ++ [uploading; processing; done])
  | Throw e =>
      mkScreen (Some uri) error (Some (message e)) (navigated scr)
               (history scr ++ [uploading; processing; error])
  end.
Proof.
  unfold handleIdentify. rewrite Himage, Hgrant, Hupload.
apply String.eqb_neq in Huri. rewrite Huri.
  destruct (outcome (pollResults (results_reply net) default_maxAttempts));
    unfold fail, navigate_Result, setUploadState, setErrorMessage; simpl;
    rewrite ?Himage, <- ?app_assoc; reflexivity.
Qed.

End IdentifyFlow.

(* ===================================================================== *)
(** * The poll bound *)
(* ===================================================================== *)


(** With every answer in before the next tick, [pollForResults] ends with the
    interval cleared and the promise settled within [POLL_MAX_ATTEMPTS]
    ticks. *)
Lemma pollForResults_promptly (requests : Z -> App.Request) (pg : App.Page) :
  let p := App.poller (App.pollForResults requests (App.promptly 40) pg) in
  App.pollTimer (App.page p) = false
  /\ is_Some (App.settled p)
  /\ 1 <= App.attempts p <= App.POLL_MAX_ATTEMPTS
  /\ App.waited_ms p = App.POLL_INTERVAL_MS * App.attempts p.
Proof.
  intros p. subst p. unfold App.pollForResults, App.promptly.
  pose proof (run_well_formed requests (fun _ pg => pg) (fun _ _ => eq_refl)
                (flat_map (fun i => [App.Tick; App.Reply (Z.of_nat i)]) (seq 1 40))
                (App.start pg) (start_well_formed pg))
    as (Hset & _ & Hwait & _).
  destruct (run_promptly requests (fun _ pg => pg) (fun _ _ => eq_refl) 40 0
              (App.start pg) eq_refl eq_refl eq_refl)
    as (_ & [(Hoff & Hb)|(_ & Hb & Hc)]).
  - split; [exact Hoff|]. split; [|split; [|exact Hwait]].
    + destruct (App.settled _); [eauto|].
      rewrite Hoff in Hset. destruct Hset as [_ Hset]. discriminate (Hset eq_refl).
    + unfold App.POLL_MAX_ATTEMPTS in *. lia.
  - exfalso. specialize (Hc ltac:(discriminate)). rewrite Hb in Hc.
    unfold App.POLL_MAX_ATTEMPTS in Hc. lia.
Qed.



(* ===================================================================== *)
(** * Terminal responses *)
(* ===================================================================== *)

(** Where [pollResults] stops when attempt [k] is the first terminal one. *)
Lemma pollResults_stops_at (fetch : Z -> Completion (Response Api.PollResponse))
    (maxAttempts k : Z) :
  1 <= k <= maxAttempts ->
  (forall i, 1 <= i < k -> Api.pollAttempt (fetch i) = Api.Continue) ->
  Api.pollResults fetch maxAttempts =
  match Api.pollAttempt (fetch k) with
  | Api.Resolve r => Api.mkPollRun (Return r) k (Api.POLL_INTERVAL_MS * (k - 1))
  | Api.Reject e => Api.mkPollRun (Throw e) k (Api.POLL_INTERVAL_MS * (k - 1))
  | Api.Continue => Api.pollFrom fetch maxAttempts k (k - 1) (Api.POLL_INTERVAL_MS * (k - 1))
  end.
Proof.
  intros Hk Hc. unfold Api.pollResults.
  rewrite (pollFrom_skip fetch maxAttempts (Z.to_nat (k - 1)) 1 0 0)
    by (try (intros i Hi; apply Hc); lia).
  replace (1 + Z.of_nat (Z.to_nat (k - 1))) with k by lia.
  replace (0 + Z.of_nat (Z.to_nat (k - 1))) with (k - 1) by lia.
  replace (0 + Api.POLL_INTERVAL_MS * Z.of_nat (Z.to_nat (k - 1)))
    with (Api.POLL_INTERVAL_MS * (k - 1)) by (unfold Api.POLL_INTERVAL_MS; lia).
  destruct (Api.pollAttempt (fetch k)) eqn:Hstep; [| |reflexivity];
    rewrite pollFrom_unfold, Hstep;
    (destruct (decide (k <= maxAttempts)); [|lia]); f_equal; lia.
Qed.

(** A request that [authFetch] lets through comes back as it is, the page
    untouched. *)
Lemma authFetch_authorised {A : Type} (token : option string)
    (res : Response A) (pg : App.Page) :
  is_Some (App.truthy token) -> http_status res <> 401 ->
  App.authFetch token (Return res) pg = (Return res, pg).
Proof.
  intros [t Ht] Hne. unfold App.authFetch. rewrite Ht.
  destruct (Z.eqb_spec (http_status res) 401); [contradiction|reflexivity].
Qed.

(** An answer counts for a request that is out, whatever else is. *)
Lemma deliver_Reply (requests : Z -> App.Request)
    (caught : Error -> App.Page -> App.Page) (m : App.Machine) (n : Z) :
  n ∈ App.unanswered m ->
  App.poller (App.deliver requests caught m (App.Reply n))
  = App.onReply requests caught n (App.poller m).
Proof.
  intros Hn. simpl. rewrite bool_decide_eq_true_2 by assumption. reflexivity.
Qed.

(** C1, as the code has it.  A response with status [error] ends the mobile
    loop at once: [pollResults] sends no further request and rejects with the
    response's error detail (a fixed message when there is none), and the home
    screen ends in [error] showing that message.  The webapp loop has no error
    status: the same response is non-terminal there, and the loop polls on
    while attempts remain. *)
Theorem error_status_ends_mobile_poll
    (fetch : Z -> Completion (Response Api.PollResponse))
    (maxAttempts k : Z) (response : Response Api.PollResponse)
    (data : Api.PollResponse) :
  1 <= k <= maxAttempts ->
  (forall i, 1 <= i < k -> Api.pollAttempt (fetch i) = Api.Continue) ->
  fetch k = Return response ->
  ok response = true ->
  json response = Return data ->
  Api.status data = "error" ->
  let detail := nullish (Api.error data) "Fish identification failed on the server." in
  Api.pollResults fetch maxAttempts
  = Api.mkPollRun (Throw (mkError detail)) k (Api.POLL_INTERVAL_MS * (k - 1))
  /\ (maxAttempts = Api.default_maxAttempts ->
      forall net scr uri grant,
        HomeScreen.results_reply net = fetch ->
        HomeScreen.imageUri scr = Some uri ->
        uri <> EmptyString ->
        Api.getUploadUrl (HomeScreen.upload_url_reply net) = Return grant ->
        Api.uploadToS3 (HomeScreen.s3_reply net) = Return tt ->
        HomeScreen.handleIdentify net scr
        = HomeScreen.mkScreen (Some uri) HomeScreen.error (Some detail)
            (HomeScreen.navigated scr)
            (HomeScreen.history scr
               ++ [HomeScreen.uploading; HomeScreen.processing; HomeScreen.error]))
  /\ (forall attempts res wdata,
        ok res = true -> json res = Return wdata -> App.status wdata = "error" ->
        App.pollAttempt attempts (Return res)
        = if App.POLL_MAX_ATTEMPTS <=? attempts then App.TimedOut else App.Pending).
Proof.
  intros Hk Hc Hf Hok Hj Hs detail.
  assert (Hrun : Api.pollResults fetch maxAttempts
                 = Api.mkPollRun (Throw (mkError detail)) k
                     (Api.POLL_INTERVAL_MS * (k - 1))).
  { rewrite (pollResults_stops_at fetch maxAttempts k Hk Hc), Hf.
    rewrite (pollAttempt_error response data Hok Hj Hs). reflexivity. }
  split; [exact Hrun|split].
  - intros -> net scr uri grant Hnet Himg Huri Hgrant Hup.
    rewrite (handleIdentify_polls net scr uri grant Himg Huri Hgrant Hup), Hnet, Hrun.
    reflexivity.
  - intros attempts res wdata Hwok Hwj Hws.
    apply (web_pollAttempt_other res wdata Hwok Hwj). rewrite Hws. discriminate.
Qed.

(** A server reporting [error] with detail "corrupt image" at the third
    request. *)
Lemma error_status_ends_mobile_poll_witness :
  let fetch := Samples.switch_at 3 Samples.pending_data
                 (Samples.error_data "corrupt image") in
  Api.pollResults fetch 20 = Api.mkPollRun (Throw (mkError "corrupt image")) 3 6000
  /\ HomeScreen.handleIdentify (Samples.backend fetch) Samples.screen0
     = HomeScreen.mkScreen (Some "file:///fish.jpg") HomeScreen.error
         (Some "corrupt image") None
         [HomeScreen.uploading; HomeScreen.processing; HomeScreen.error].
Proof.
  intros fetch.
  pose proof (error_status_ends_mobile_poll fetch 20 3
                (mkResponse true 200 EmptyString
                   (Return (Samples.error_data "corrupt image")))
                (Samples.error_data "corrupt image")) as H.
  destruct H as (Hrun & Hscreen & _).
  - lia.
  - intros i Hi. unfold fetch, Samples.switch_at.
    destruct (Z.ltb_spec i 3); [reflexivity|lia].
  - reflexivity.
  - reflexivity.
  - reflexivity.
  - reflexivity.
  - split; [exact Hrun|].
    apply (Hscreen eq_refl (Samples.backend fetch) Samples.screen0
             "file:///fish.jpg" Samples.grant);
      [reflexivity | reflexivity | discriminate | reflexivity | reflexivity].
Defined.

(** C1 fails on the webapp loop: answered [error] on every request, it is
    still polling after the first tick and only ends at the attempt limit,
    with its own timeout message. *)
Lemma webapp_polls_on_after_error_status :
  let requests := App.signed_in (Samples.always (Samples.web_data "error")) in
  let first := App.poller (App.pollForResults requests (App.promptly 1) Samples.page0) in
  (App.settled first = None /\ App.pollTimer (App.page first) = true)
  /\ App.poller (App.pollForResults requests (App.promptly 40) Samples.page0)
     = App.mkPoller 40 (Some (Throw App.poll_timeout_error))
         (App.setTimer false Samples.page0) 120000.
Proof. vm_compute. repeat split. Qed.

(** C4, as the code has it.  A response with status [completed] that carries
    a result ends the mobile loop at once: [pollResults] resolves with that
    result and the home screen ends in [done], navigating to it; a [completed]
    response without a result is treated as non-terminal.  The webapp loop
    does the same on its own completion status, [ready]: when the answer to a
    request that is out comes back authorised, [ok] and [ready], the callback
    clears the interval, displays the response and resolves the promise
    (which settles it unless it is settled already). *)
Theorem completed_status_ends_poll
    (fetch : Z -> Completion (Response Api.PollResponse))
    (maxAttempts k : Z) (response : Response Api.PollResponse)
    (data : Api.PollResponse) (r : Api.FishResult) :
  1 <= k <= maxAttempts ->
  (forall i, 1 <= i < k -> Api.pollAttempt (fetch i) = Api.Continue) ->
  fetch k = Return response ->
  ok response = true ->
  json response = Return data ->
  Api.status data = "completed" ->
  Api.result data = Some r ->
  Api.pollResults fetch maxAttempts
  = Api.mkPollRun (Return r) k (Api.POLL_INTERVAL_MS * (k - 1))
  /\ (maxAttempts = Api.default_maxAttempts ->
      forall net scr uri grant,
        HomeScreen.results_reply net = fetch ->
        HomeScreen.imageUri scr = Some uri ->
        uri <> EmptyString ->
        Api.getUploadUrl (HomeScreen.upload_url_reply net) = Return grant ->
        Api.uploadToS3 (HomeScreen.s3_reply net) = Return tt ->
        HomeScreen.handleIdentify net scr
        = HomeScreen.mkScreen (Some uri) HomeScreen.done None (Some r)
            (HomeScreen.history scr
               ++ [HomeScreen.uploading; HomeScreen.processing; HomeScreen.done]))
  /\ (forall requests caught m n res wdata,
        n ∈ App.unanswered m ->
        is_Some (App.truthy (App.id_token (requests n))) ->
        App.reply (requests n) = Return res ->
        http_status res <> 401 ->
        ok res = true ->
        json res = Return wdata ->
        App.status wdata = "ready" ->
        App.poller (App.deliver requests caught m (App.Reply n))
        = App.mkPoller (App.attempts (App.poller m))
            (App.settle (Return tt) (App.settled (App.poller m)))
            (App.mkPage false App.view_results
               (App.errorText (App.page (App.poller m))) (Some wdata))
            (App.waited_ms (App.poller m)))
  /\ (forall response' data',
        ok response' = true -> json response' = Return data' ->
        Api.status data' = "completed" -> Api.result data' = None ->
        Api.pollAttempt (Return response') = Api.Continue).
Proof.
  intros Hk Hc Hf Hok Hj Hs Hr.
  assert (Hrun : Api.pollResults fetch maxAttempts
                 = Api.mkPollRun (Return r) k (Api.POLL_INTERVAL_MS * (k - 1))).
  { rewrite (pollResults_stops_at fetch maxAttempts k Hk Hc), Hf.
    rewrite (pollAttempt_completed response data Hok Hj r Hs Hr). reflexivity. }
  split; [exact Hrun|split; [|split]].
  - intros -> net scr uri grant Hnet Himg Huri Hgrant Hup.
    rewrite (handleIdentify_polls net scr uri grant Himg Huri Hgrant Hup), Hnet, Hrun.
    reflexivity.
  - intros requests caught m n res wdata Hn Htok Hreply H401 Hwok Hwj Hws.
    rewrite (deliver_Reply requests caught m n Hn). unfold App.onReply.
    rewrite Hreply, (authFetch_authorised _ res _ Htok H401).
    rewrite (web_pollAttempt_ready res wdata Hwok Hwj _ Hws). reflexivity.
  - intros response' data' Hok' Hj' Hs' Hr'.
    apply (pollAttempt_completed_no_result response' data' Hok' Hj' Hs' Hr').
Qed.

(** The mobile server answers [completed] at the second request; the webapp's
    third request, the one that is out, is answered [ready]. *)
Lemma completed_status_ends_poll_witness :
  let fetch := Samples.switch_at 2 Samples.pending_data Samples.completed_data in
  let requests := App.signed_in (Samples.switch_at 3 (Samples.web_data "pending")
                                   (Samples.web_data "ready")) in
  Api.pollResults fetch 20 = Api.mkPollRun (Return Samples.dennis) 2 3000
  /\ HomeScreen.handleIdentify (Samples.backend fetch) Samples.screen0
     = HomeScreen.mkScreen (Some "file:///fish.jpg") HomeScreen.done None
         (Some Samples.dennis)
         [HomeScreen.uploading; HomeScreen.processing; HomeScreen.done]
  /\ App.poller (App.deliver requests (fun _ pg => pg) Samples.polling (App.Reply 3))
     = App.mkPoller 3 (Some (Return tt))
         (App.mkPage false App.view_results EmptyString (Some (Samples.web_data "ready")))
         9000.
Proof.
  intros fetch requests.
  pose proof (completed_status_ends_poll fetch 20 2
           (mkResponse true 200 EmptyString (Return Samples.completed_data))
           Samples.completed_data Samples.dennis) as H.
  destruct H as (Hmobile & Hscreen & Hweb & _);
    try reflexivity; try lia;
    try (intros i Hi; assert (i = 1) as -> by lia; reflexivity).
  split; [exact Hmobile|split].
  - apply (Hscreen eq_refl (Samples.backend fetch) Samples.screen0
             "file:///fish.jpg" Samples.grant);
      [reflexivity | reflexivity | discriminate | reflexivity | reflexivity].
  - apply (Hweb requests (fun _ pg => pg) Samples.polling 3
             (mkResponse true 200 EmptyString (Return (Samples.web_data "ready")))
             (Samples.web_data "ready"));
      [apply list_elem_of_singleton; reflexivity | eexists; reflexivity
      | reflexivity | discriminate | reflexivity | reflexivity | reflexivity].
Defined.

(** C4 fails on a [completed] response that carries no result: the mobile
    loop does not resolve on it; answered so on every request, it uses up its
    attempts and rejects with the timeout error.  (Nor does the webapp loop
    resolve on [completed], with or without data: its completion status is
    [ready].) *)
Lemma completed_without_result_times_out :
  (Api.pollAttempt (PollProtocol.reply Samples.completed_empty) = Api.Continue
   /\ Api.pollResults (Samples.always Samples.completed_empty) Api.default_maxAttempts
      = Api.mkPollRun (Throw (Api.timeout_error 20)) 20 57000)
  /\ App.poller (App.pollForResults
                   (App.signed_in (Samples.always (Samples.web_data "completed")))
                   (App.promptly 40) Samples.page0)
     = App.mkPoller 40 (Some (Throw App.poll_timeout_error))
         (App.setTimer false Samples.page0) 120000.
Proof. vm_compute. repeat split. Qed.

(** Twenty non-terminal answers run the default loop into its timeout. *)
Lemma poll_timeout_run (fetch : Z -> Completion (Response Api.PollResponse)) :
  (forall i, 1 <= i <= 20 -> Api.pollAttempt (fetch i) = Api.Continue) ->
  Api.pollResults fetch Api.default_maxAttempts
  = Api.mkPollRun (Throw (Api.timeout_error 20)) 20 57000.
Proof.
  intros Hc. unfold Api.pollResults, Api.default_maxAttempts.
  rewrite (pollFrom_skip fetch 20 19 1 0 0) by (try (intros i Hi; apply Hc); lia).
  rewrite pollFrom_continue by (try apply Hc; lia).
  destruct (decide (1 + Z.of_nat 19 < 20)); [lia|]. reflexivity.
Qed.

(* ===================================================================== *)
(** * Timeout and server error on the home screen *)
(* ===================================================================== *)

(** C8, as the code has it.  When every one of the 20 default attempts comes
    back non-terminal, [pollResults] rejects with its timeout message and the
    home screen, whose states are [idle], [uploading], [processing], [done]
    and [error] only, ends in [error] showing that message: the state a
    server-reported error ends in as well. *)
Theorem timeout_ends_in_error_state
    (net : HomeScreen.Backend) (scr : HomeScreen.Screen) (uri : string)
    (grant : Api.UploadUrlResponse) :
  HomeScreen.imageUri scr = Some uri ->
  uri <> EmptyString ->
  Api.getUploadUrl (HomeScreen.upload_url_reply net) = Return grant ->
  Api.uploadToS3 (HomeScreen.s3_reply net) = Return tt ->
  (forall i, 1 <= i <= 20 ->
     Api.pollAttempt (HomeScreen.results_reply net i) = Api.Continue) ->
  Api.pollResults (HomeScreen.results_reply net) Api.default_maxAttempts
  = Api.mkPollRun
      (Throw (mkError
         "Identification timed out after 20 attempts (~60s). Please try again."))
      20 57000
  /\ HomeScreen.handleIdentify net scr
     = HomeScreen.mkScreen (Some uri) HomeScreen.error
         (Some "Identification timed out after 20 attempts (~60s). Please try again.")
         (HomeScreen.navigated scr)
         (HomeScreen.history scr
            ++ [HomeScreen.uploading; HomeScreen.processing; HomeScreen.error])
  /\ (forall s : HomeScreen.UploadState,
        In s [HomeScreen.idle; HomeScreen.uploading; HomeScreen.processing;
              HomeScreen.done; HomeScreen.error]).
Proof.
  intros Himg Huri Hgrant Hup Hc.
  assert (Hrun : Api.pollResults (HomeScreen.results_reply net) Api.default_maxAttempts
                 = Api.mkPollRun (Throw (Api.timeout_error 20)) 20 57000).
  { apply poll_timeout_run. exact Hc. }
  split; [exact Hrun|split].
  - rewrite (handleIdentify_polls net scr uri grant Himg Huri Hgrant Hup), Hrun.
    reflexivity.
  - intros []; simpl; tauto.
Qed.

(** A server that answers [pending] to every request. *)
Lemma timeout_ends_in_error_state_witness :
  HomeScreen.handleIdentify (Samples.backend (Samples.always Samples.pending_data))
    Samples.screen0
  = HomeScreen.mkScreen (Some "file:///fish.jpg") HomeScreen.error
      (Some "Identification timed out after 20 attempts (~60s). Please try again.")
      None [HomeScreen.uploading; HomeScreen.processing; HomeScreen.error].
Proof.
  apply (timeout_ends_in_error_state
           (Samples.backend (Samples.always Samples.pending_data))
           Samples.screen0 "file:///fish.jpg" Samples.grant).
  - reflexivity.
  - discriminate.
  - reflexivity.
  - reflexivity.
  - intros i _. reflexivity.
Defined.

(** C8 fails: a timeout and a server-reported error end in the same state of
    the home screen, and when the server's error detail reads like the timeout
    message the two screens are equal altogether. *)
Lemma timeout_not_distinct_from_error :
  let timed_out :=
    HomeScreen.handleIdentify (Samples.backend (Samples.always Samples.pending_data))
      Samples.screen0 in
  let failed detail :=
    HomeScreen.handleIdentify
      (Samples.backend (Samples.always (Samples.error_data detail))) Samples.screen0 in
  HomeScreen.uploadState timed_out = HomeScreen.error
  /\ HomeScreen.uploadState (failed "corrupt image") = HomeScreen.error
  /\ failed "Identification timed out after 20 attempts (~60s). Please try again."
     = timed_out.
Proof. vm_compute. repeat split. Qed.

(* ===================================================================== *)
(** * The two poll loops against the protocol *)
(* ===================================================================== *)

(** The mobile loop follows the protocol's reading of the status, except that
    [completed] only counts with a result. *)
Lemma mobile_class_spec (data : Api.PollResponse) :
  PollProtocol.mobile_class data =
  match PollProtocol.spec_class (Api.status data), Api.result data with
  | PollProtocol.TerminalSuccess, None => PollProtocol.ContinuePolling
  | c, _ => c
  end.
Proof.
  unfold PollProtocol.mobile_class, PollProtocol.spec_class, PollProtocol.reply,
    Api.pollAttempt; simpl.
  destruct (String.eqb (Api.status data) "completed") eqn:Hc.
  - destruct (Api.result data); [reflexivity|].
    apply String.eqb_eq in Hc. rewrite Hc. reflexivity.
  - destruct (String.eqb (Api.status data) "error"), (Api.result data); reflexivity.
Qed.

(** The webapp loop knows one terminal status, [ready]. *)
Lemma webapp_class_spec (attempts : Z) (wdata : App.ResultsData) :
  PollProtocol.webapp_class attempts wdata =
  if String.eqb (App.status wdata) "ready"
  then PollProtocol.TerminalSuccess else PollProtocol.ContinuePolling.
Proof.
  unfold PollProtocol.webapp_class, PollProtocol.reply, App.pollAttempt; simpl.
  destruct (String.eqb (App.status wdata) "ready"); [reflexivity|].
  destruct (App.POLL_MAX_ATTEMPTS <=? attempts); reflexivity.
Qed.

(** C9, as the code has it.  On a status other than [completed], [error] and
    [ready], in particular on [pending] and [processing], both loops and the
    protocol agree: keep polling.  On those three they differ: the mobile loop
    ends successfully on [completed] with a result and with an error on
    [error], and keeps polling on [ready]; the webapp loop ends successfully on
    [ready] and keeps polling on [completed] and on [error]. *)
Theorem poll_loops_agree_off_terminal_statuses
    (data : Api.PollResponse) (wdata : App.ResultsData) (attempts : Z) :
  Api.status data = App.status wdata ->
  (Api.status data <> "completed" -> Api.status data <> "error" ->
   Api.status data <> "ready" ->
   PollProtocol.mobile_class data = PollProtocol.ContinuePolling
   /\ PollProtocol.webapp_class attempts wdata = PollProtocol.ContinuePolling
   /\ PollProtocol.spec_class (Api.status data) = PollProtocol.ContinuePolling)
  /\ (Api.status data = "completed" ->
      PollProtocol.mobile_class data
      = match Api.result data with
        | Some _ => PollProtocol.TerminalSuccess
        | None => PollProtocol.ContinuePolling
        end
      /\ PollProtocol.webapp_class attempts wdata = PollProtocol.ContinuePolling)
  /\ (Api.status data = "error" ->
      PollProtocol.mobile_class data = PollProtocol.TerminalError
      /\ PollProtocol.webapp_class attempts wdata = PollProtocol.ContinuePolling)
  /\ (Api.status data = "ready" ->
      PollProtocol.mobile_class data = PollProtocol.ContinuePolling
      /\ PollProtocol.webapp_class attempts wdata = PollProtocol.TerminalSuccess).
Proof.
  intros Hsame.
  rewrite mobile_class_spec, webapp_class_spec, <- Hsame.
  unfold PollProtocol.spec_class.
  split; [|split; [|split]].
  - intros Hc He Hr. apply String.eqb_neq in Hc, He, Hr.
    rewrite Hc, He, Hr. repeat split; destruct (Api.result data); reflexivity.
  - intros ->. simpl. split; [destruct (Api.result data)|]; reflexivity.
  - intros ->. simpl. split; [destruct (Api.result data)|]; reflexivity.
  - intros ->. simpl. split; [destruct (Api.result data)|]; reflexivity.
Qed.

(** Both loops keep polling on [pending]. *)
Lemma poll_loops_agree_off_terminal_statuses_witness :
  PollProtocol.mobile_class Samples.pending_data = PollProtocol.ContinuePolling
  /\ PollProtocol.webapp_class 1 (Samples.web_data "pending")
     = PollProtocol.ContinuePolling
  /\ PollProtocol.spec_class "pending" = PollProtocol.ContinuePolling.
Proof.
  destruct (poll_loops_agree_off_terminal_statuses
              Samples.pending_data (Samples.web_data "pending") 1 eq_refl)
    as (Hagree & _).
  apply Hagree; discriminate.
Defined.

(** C9 fails: the loops disagree on which status ends the polling.  On
    [ready] the webapp loop resolves and the mobile loop polls on (until it
    times out), on [completed] it is the other way round, and [error] is
    terminal for the mobile loop only. *)
Lemma poll_loops_disagree_on_completion :
  (PollProtocol.mobile_class Samples.ready_data = PollProtocol.ContinuePolling
   /\ PollProtocol.webapp_class 1 (Samples.web_data "ready")
      = PollProtocol.TerminalSuccess)
  /\ (PollProtocol.mobile_class Samples.completed_data = PollProtocol.TerminalSuccess
      /\ PollProtocol.webapp_class 1 (Samples.web_data "completed")
         = PollProtocol.ContinuePolling)
  /\ (PollProtocol.mobile_class (Samples.error_data "corrupt image")
      = PollProtocol.TerminalError
      /\ PollProtocol.webapp_class 1 (Samples.web_data "error")
         = PollProtocol.ContinuePolling)
  /\ (Api.outcome (Api.pollResults (Samples.always Samples.ready_data) 20)
      = Throw (Api.timeout_error 20)
      /\ App.settled
           (App.poller (App.pollForResults
                          (App.signed_in (Samples.always (Samples.web_data "ready")))
                          (App.promptly 40) Samples.page0))
         = Some (Return tt)).
Proof. vm_compute. repeat split. Qed.

(* ===================================================================== *)
(** * The auth facade *)
(* ===================================================================== *)

(** C10. [getCurrentUser] never throws: whatever the SDK call does, the
    facade returns; it returns the user's email (the SDK's [username]) when
    the SDK finds a session, and [null] when the SDK throws for lack of
    one. *)
Theorem getCurrentUser_never_throws
    (Session : Type) (amplifyGetCurrentUser : Session -> Completion Auth.AuthUser)
    (s : Session) :
  (exists r, Auth.getCurrentUser Session amplifyGetCurrentUser s = Return r)
  /\ (forall user, amplifyGetCurrentUser s = Return user ->
        Auth.getCurrentUser Session amplifyGetCurrentUser s
        = Return (Some (Auth.mkCurrentUser (Auth.username user))))
  /\ (forall e, amplifyGetCurrentUser s = Throw e ->
        Auth.getCurrentUser Session amplifyGetCurrentUser s = Return None).
Proof.
  unfold Auth.getCurrentUser. repeat apply conj.
  - destruct (amplifyGetCurrentUser s); eauto.
  - intros user ->. reflexivity.
  - intros e ->. reflexivity.
Qed.

(** A signed-in session and a missing one. *)
Lemma getCurrentUser_never_throws_witness :
  Auth.getCurrentUser _ Samples.amplify (Some Samples.fisher)
  = Return (Some (Auth.mkCurrentUser "fisher@example.com"))
  /\ Auth.getCurrentUser _ Samples.amplify None = Return None.
Proof.
  split.
  - destruct (getCurrentUser_never_throws _ Samples.amplify (Some Samples.fisher))
      as (_ & Hsome & _).
    apply (Hsome Samples.fisher). reflexivity.
  - destruct (getCurrentUser_never_throws _ Samples.amplify None) as (_ & _ & Hnone).
    apply (Hnone (mkError "UserUnAuthenticatedException: User needs to be authenticated.")).
    reflexivity.
Defined.

(* ===================================================================== *)
(** * The result store *)
(* ===================================================================== *)

(** C6. [PutResult] is an idempotent full-record overwrite: writing the same
    record a second time leaves the store as the first write left it, with
    [GetStatus] returning that very record; and of two writes to one key only
    the later one shows (last writer wins, unconditionally). *)
Theorem PutResult_idempotent_overwrite
    (work_item_id : string) (record earlier : ResultStore.ResultRecord)
    (store : gmap string ResultStore.ResultRecord) :
  let once := ResultStore.PutResult work_item_id record store in
  let twice := ResultStore.PutResult work_item_id record once in
  twice = once
  /\ ResultStore.GetStatus work_item_id twice = Some record
  /\ ResultStore.GetStatus work_item_id once = Some record
  /\ ResultStore.PutResult work_item_id record
       (ResultStore.PutResult work_item_id earlier store) = once.
Proof.
  unfold ResultStore.PutResult, ResultStore.GetStatus. cbv zeta.
  rewrite !insert_insert_eq, lookup_insert_eq. auto.
Qed.













(* ===================================================================== *)
(** * Object-write events *)
(* ===================================================================== *)

(** A leading [*] may match nothing, or swallow one more character. *)
Lemma glob_star_cons (p : string) (c : ascii) (s : string) :
  Routing.glob (String "*" p) (String c s)
  = Routing.glob p (String c s) || Routing.glob (String "*" p) s.
Proof. reflexivity. Qed.

Lemma glob_star_skip (p s : string) :
  Routing.glob p s = true -> Routing.glob (String "*" p) s = true.
Proof.
  intros H. destruct s as [|c s].
  - simpl. rewrite H. reflexivity.
  - rewrite glob_star_cons, H. reflexivity.
Qed.

(** A pattern matches itself, wildcards included. *)
Lemma glob_refl (p : string) : Routing.glob p p = true.
Proof.
  induction p as [|c p IH]; [reflexivity|].
  destruct (Ascii.eqb_spec c "*") as [->|Hne].
  - rewrite glob_star_cons, (glob_star_skip p p IH). apply orb_true_r.
  - apply Ascii.eqb_neq in Hne. simpl. rewrite Hne.
    rewrite Ascii.eqb_refl, orb_true_r, IH. reflexivity.
Qed.

Lemma glob_star (s : string) : Routing.glob "*" s = true.
Proof. induction s as [|c s IH]; simpl in *; [reflexivity | exact IH]. Qed.

(** The notification's pattern covers every object-created event. *)
Lemma object_created_matches (kind : string) :
  Routing.glob "s3:ObjectCreated:*" ("s3:ObjectCreated:" +:+ kind) = true.
Proof. exact (glob_star kind). Qed.

Lemma filter_replicate_eq (a : string) (n : nat) :
  filter (fun q => q = a) (replicate n a) = replicate n a.
Proof.
  induction n as [|n IH]; simpl; [reflexivity|].
  rewrite filter_cons_True by reflexivity. rewrite IH. reflexivity.
Qed.

(** C7. Every successful object write to the uploads bucket yields at least
    one message on the work queue: whatever kind of object-created event the
    write is and whatever the key, the bucket notification matches it, the
    queue policy lets the storage service send, and the work queue gets one
    message plus one per duplicate hand-over, never none. *)
Theorem object_write_reaches_work_queue
    (d : Infra.Deployment) (duplicates : nat) (kind key : string) :
  let ev := Routing.mkObjectEvent (Infra.fish_uploads_bucket d)
              ("s3:ObjectCreated:" +:+ kind) key in
  Routing.queue_messages d duplicates ev
  = replicate (S duplicates) (Infra.sqs_arn d "fish-processing-queue")
  /\ (1 <= length (Routing.queue_messages d duplicates ev))%nat.
Proof.
  intros ev.
  assert (Heq : Routing.queue_messages d duplicates ev
                = replicate (S duplicates) (Infra.sqs_arn d "fish-processing-queue")).
  { subst ev.
    unfold Routing.queue_messages, Routing.deliver, Infra.bucket_notification.
    cbn [Infra.bucket Infra.queue Routing.event_bucket].
    rewrite String.eqb_refl.
    rewrite filter_cons_True.
    - rewrite filter_nil. cbn [map mjoin list_join Infra.queue_arn].
      rewrite app_nil_r. apply filter_replicate_eq.
    - split.
      + unfold Routing.target_matches.
        cbn [Infra.events Infra.filter_prefix Infra.filter_suffix existsb
             from_option Routing.eventName].
        rewrite object_created_matches. reflexivity.
      + unfold Routing.policy_allows, Infra.s3_to_sqs_policy.
        cbn [Infra.policy_queue Infra.statements Infra.queue_arn existsb].
        rewrite String.eqb_refl. unfold Routing.statement_allows.
        cbn [Infra.Effect Infra.Principal_Service Infra.Action Infra.Resource
             Infra.Condition_ArnLike forallb fst snd Routing.event_bucket].
        rewrite !glob_refl. reflexivity. }
  split; [exact Heq|]. rewrite Heq. simpl. lia.
Qed.

(* ===================================================================== *)
(** * The work queue *)
(* ===================================================================== *)

Section QueueSteps.

Import WorkQueue.

Variable cfg : Infra.SqsQueue.

(** A first delivery is within the threshold. *)
Hypothesis first_delivery_allowed : exceeds cfg 1 = false.

Local Ltac by_token m' m :=
  destruct (decide (m' = m)) as [->|?]; simplify_map_eq; eauto.

Lemma step_sorted_out (q : Queue) (ev : Event) :
  sorted_out cfg q -> sorted_out cfg (fst (step cfg q ev)).
Proof.
  intros (Hmain & Hdead & Hfresh).
  destruct ev as [id|m now|m|m]; simpl.
  - destruct (Hfresh (next_id q) (le_n _)) as [Hm Hd].
    split_and!; simpl.
    + intros m' msg Hl. by_token m' (next_id q).
    + intros m' msg Hl. destruct (Hdead m' msg Hl) as [He Hn].
      split; [assumption|]. by_token m' (next_id q).
    + intros m' Hle. destruct (Hfresh m' ltac:(lia)) as [Hm' Hd'].
      split; [|assumption]. by_token m' (next_id q). lia.
  - destruct (main q !! m) as [[id count [dl|]]|] eqn:Hm; simpl;
      [split_and!; assumption| |split_and!; assumption].
    split_and!; simpl.
    + intros m' msg Hl. by_token m' m. apply (Hmain m _ Hm).
    + intros m' msg Hl. destruct (Hdead m' msg Hl) as [He Hn].
      split; [assumption|]. by_token m' m.
    + intros m' Hle. destruct (Hfresh m' Hle) as [Hm' Hd'].
      split; [|assumption]. by_token m' m.
  - destruct (main q !! m) as [[id count [dl|]]|] eqn:Hm; simpl;
      [|split_and!; assumption|split_and!; assumption].
    destruct (exceeds cfg (count + 1)) eqn:Hex; simpl.
    + split_and!; simpl.
      * intros m' msg Hl. by_token m' m.
      * intros m' msg Hl. by_token m' m.
      * intros m' Hle. destruct (Hfresh m' Hle) as [Hm' Hd'].
        by_token m' m.
    + split_and!; simpl.
      * intros m' msg Hl. by_token m' m.
      * intros m' msg Hl. destruct (Hdead m' msg Hl) as [He Hn].
        split; [assumption|]. by_token m' m.
      * intros m' Hle. destruct (Hfresh m' Hle) as [Hm' Hd'].
        split; [|assumption]. by_token m' m.
  - destruct (main q !! m) as [[id count [dl|]]|] eqn:Hm; simpl;
      [|split_and!; assumption|split_and!; assumption].
    split_and!; simpl.
    + intros m' msg Hl. by_token m' m.
    + intros m' msg Hl. destruct (Hdead m' msg Hl) as [He Hn].
      split; [assumption|]. by_token m' m.
    + intros m' Hle. destruct (Hfresh m' Hle) as [Hm' Hd'].
      split; [|assumption]. by_token m' m.
Qed.

(** A dead-lettered message stays where it is, and no step hands it out. *)
Lemma step_dead_letter_final (q : Queue) (ev : Event) (m : nat) (msg : QueueMessage) :
  sorted_out cfg q ->
  dead_letter q !! m = Some msg ->
  dead_letter (fst (step cfg q ev)) !! m = Some msg
  /\ (forall out, snd (step cfg q ev) = Some out -> fst out <> m).
Proof.
  intros (Hmain & Hdead & Hfresh) Hd.
  destruct (Hdead m msg Hd) as [_ Hgone].
  destruct ev as [id|m' now|m'|m']; simpl.
  - split; [assumption|discriminate].
  - destruct (main q !! m') as [[id count [dl|]]|] eqn:Hm; simpl;
      (split; [assumption|]); try discriminate.
    intros out [= <-]. simpl. congruence.
  - destruct (main q !! m') as [[id count [dl|]]|] eqn:Hm; simpl;
      try (split; [assumption|discriminate]).
    destruct (exceeds cfg (count + 1)); simpl; (split; [|discriminate]);
      [|assumption].
    rewrite lookup_insert_ne by congruence. assumption.
  - destruct (main q !! m') as [[id count [dl|]]|] eqn:Hm; simpl;
      split; try assumption; discriminate.
Qed.

Lemma run_sorted_out (evs : list Event) (q : Queue) :
  sorted_out cfg q -> sorted_out cfg (run cfg q evs).
Proof.
  revert q. induction evs as [|ev evs IH]; intros q Hq; simpl; [assumption|].
  apply IH, step_sorted_out, Hq.
Qed.

Lemma run_dead_letter_final (evs : list Event) (q : Queue) (m : nat)
    (msg : QueueMessage) :
  sorted_out cfg q ->
  dead_letter q !! m = Some msg ->
  dead_letter (run cfg q evs) !! m = Some msg
  /\ main (run cfg q evs) !! m = None
  /\ ~ In m (deliveries cfg q evs).
Proof.
  revert q. induction evs as [|ev evs IH]; intros q Hq Hd; simpl.
  - split; [assumption|split; [apply (proj1 (proj2 Hq) m msg Hd)|tauto]].
  - destruct (step_dead_letter_final q ev m msg Hq Hd) as [Hd' Hout].
    pose proof (step_sorted_out q ev Hq) as Hq'.
    destruct (IH (fst (step cfg q ev)) Hq' Hd') as (Hfin & Hmain & Hnot).
    unfold run in *. split; [assumption|split; [assumption|]].
    destruct (step cfg q ev) as [q' [[m' msg']|]]; simpl in *; [|assumption].
    intros [->|Hin]; [|tauto]. apply (Hout (m, msg') eq_refl). reflexivity.
Qed.

End QueueSteps.

Lemma empty_queue_sorted_out (cfg : Infra.SqsQueue) :
  WorkQueue.sorted_out cfg WorkQueue.empty_queue.
Proof.
  unfold WorkQueue.sorted_out, WorkQueue.empty_queue; simpl.
  split_and!; intros *; rewrite ?lookup_empty; try discriminate. auto.
Qed.

Lemma fish_queue_exceeds (d : Infra.Deployment) (count : Z) :
  WorkQueue.exceeds (Infra.fish_queue d) count = (3 <? count).
Proof. reflexivity. Qed.

(** C2. On the work queue as declared (a redrive policy with
    [maxReceiveCount = 3]), whatever events happened: a message still in
    circulation has a delivery count of at most 3; the lease expiry that takes
    the count past 3 moves the message from the main queue to the dead-letter
    area; and a dead-lettered message has a count above 3, is gone from the
    main queue, and through any further events stays dead-lettered and is
    never handed to a worker again. *)
Theorem dead_letter_after_threshold
    (d : Infra.Deployment) (evs evs' : list WorkQueue.Event) (m : nat)
    (msg : WorkQueue.QueueMessage) :
  let cfg := Infra.fish_queue d in
  let q := WorkQueue.run cfg WorkQueue.empty_queue evs in
  (WorkQueue.main q !! m = Some msg -> WorkQueue.delivery_count msg <= 3)
  /\ (WorkQueue.main q !! m = Some msg ->
      WorkQueue.delivery_count msg = 3 ->
      is_Some (WorkQueue.visibility_deadline msg) ->
      let q' := fst (WorkQueue.step cfg q (WorkQueue.LeaseExpired m)) in
      WorkQueue.main q' !! m = None
      /\ WorkQueue.dead_letter q' !! m
         = Some (WorkQueue.mkQueueMessage (WorkQueue.work_item_id msg) 4 None))
  /\ (WorkQueue.dead_letter q !! m = Some msg ->
      3 < WorkQueue.delivery_count msg
      /\ WorkQueue.main q !! m = None
      /\ WorkQueue.dead_letter (WorkQueue.run cfg q evs') !! m = Some msg
      /\ WorkQueue.main (WorkQueue.run cfg q evs') !! m = None
      /\ ~ In m (WorkQueue.deliveries cfg q evs')).
Proof.
  intros cfg q.
  assert (Hq : WorkQueue.sorted_out cfg q)
    by (apply run_sorted_out; [reflexivity | apply empty_queue_sorted_out]).
  split; [|split].
  - intros Hm. destruct Hq as (Hmain & _).
    specialize (Hmain m msg Hm). subst cfg.
    rewrite fish_queue_exceeds in Hmain. apply Z.ltb_ge in Hmain. exact Hmain.
  - intros Hm Hcount [dl Hdl]. destruct msg as [id count deadline].
    simpl in *. subst count deadline. rewrite Hm. simpl.
    rewrite lookup_delete_eq, lookup_insert_eq. split; reflexivity.
  - intros Hd.
    destruct (run_dead_letter_final cfg eq_refl evs' q m msg Hq Hd)
      as (Hfin & Hgone & Hnot).
    destruct Hq as (_ & Hdead & _). destruct (Hdead m msg Hd) as [Hex Hnone].
    subst cfg. rewrite fish_queue_exceeds in Hex. apply Z.ltb_lt in Hex.
    repeat split; assumption.
Qed.

(** A message whose lease ran out after each of its three deliveries: the
    third expiry dead-letters it, and a fourth receive gets nothing. *)
Lemma dead_letter_after_threshold_witness :
  let cfg := Infra.fish_queue Samples.deployment in
  let before := WorkQueue.run cfg WorkQueue.empty_queue (take 6 Samples.three_expiries) in
  let after := WorkQueue.run cfg WorkQueue.empty_queue Samples.three_expiries in
  let later := [WorkQueue.Receive 0 1200; WorkQueue.LeaseExpired 0;
                WorkQueue.Receive 0 1600] in
  (WorkQueue.main (fst (WorkQueue.step cfg before (WorkQueue.LeaseExpired 0))) !! 0%nat
   = None
   /\ WorkQueue.dead_letter (fst (WorkQueue.step cfg before (WorkQueue.LeaseExpired 0)))
        !! 0%nat
      = Some (WorkQueue.mkQueueMessage "uploads/3f7a.jpg" 4 None))
  /\ (WorkQueue.dead_letter (WorkQueue.run cfg after later) !! 0%nat
      = Some (WorkQueue.mkQueueMessage "uploads/3f7a.jpg" 4 None)
      /\ ~ In 0%nat (WorkQueue.deliveries cfg after later)).
Proof.
  intros cfg before after later. split.
  - destruct (dead_letter_after_threshold Samples.deployment
                (take 6 Samples.three_expiries) [] 0
                (WorkQueue.mkQueueMessage "uploads/3f7a.jpg" 3 (Some 1130)))
      as (_ & Hmove & _).
    apply Hmove; [reflexivity | reflexivity | eexists; reflexivity].
  - destruct (dead_letter_after_threshold Samples.deployment
                Samples.three_expiries later 0
                (WorkQueue.mkQueueMessage "uploads/3f7a.jpg" 4 None))
      as (_ & _ & Hfinal).
    destruct (Hfinal eq_refl) as (_ & _ & Hstays & _ & Hnever).
    split; [exact Hstays | exact Hnever].
Defined.

(** The three deliveries of that message, and what becomes of an event that
    is not an object creation. *)
Example three_deliveries_then_none :
  WorkQueue.deliveries (Infra.fish_queue Samples.deployment) WorkQueue.empty_queue
    (Samples.three_expiries ++ [WorkQueue.Receive 0 1200])
  = [0%nat; 0%nat; 0%nat].
Proof. reflexivity. Qed.

Example object_removed_not_queued :
  Routing.queue_messages Samples.deployment 0
    (Routing.mkObjectEvent (Infra.fish_uploads_bucket Samples.deployment)
       "s3:ObjectRemoved:Delete" "uploads/3f7a.jpg")
  = [].
Proof. reflexivity. Qed.

(* ===================================================================== *)
(** * More on the mobile poll loop *)
(* ===================================================================== *)

(** X1. Once some attempt within the limit is terminal, raising the limit
    changes nothing: [pollResults] settles the same way, after the same
    requests and the same sleep, for every limit that reaches that attempt. *)
Theorem poll_outcome_stable_under_more_attempts
    (fetch : Z -> Completion (Response Api.PollResponse)) (n n' k : Z) :
  1 <= k <= n ->
  k <= n' ->
  (forall i, 1 <= i < k -> Api.pollAttempt (fetch i) = Api.Continue) ->
  Api.pollAttempt (fetch k) <> Api.Continue ->
  Api.pollResults fetch n' = Api.pollResults fetch n.
Proof.
  intros Hk Hk' Hc Hstop.
  rewrite (pollResults_stops_at fetch n k) by (assumption || lia).
  rewrite (pollResults_stops_at fetch n' k) by (assumption || lia).
  destruct (Api.pollAttempt (fetch k)); [reflexivity | reflexivity | contradiction].
Qed.

Lemma poll_outcome_stable_under_more_attempts_witness :
  Api.pollResults (Samples.switch_at 3 Samples.pending_data Samples.completed_data) 40
  = Api.pollResults (Samples.switch_at 3 Samples.pending_data Samples.completed_data) 3.
Proof.
  apply (poll_outcome_stable_under_more_attempts _ 3 40 3).
  - lia.
  - lia.
  - intros i Hi. unfold Samples.switch_at.
    destruct (Z.ltb_spec i 3); [reflexivity|lia].
  - discriminate.
Defined.

Lemma pollFrom_ext (fetch fetch' : Z -> Completion (Response Api.PollResponse))
    (maxAttempts : Z) (n : nat) :
  forall attempt sent slept,
    Z.to_nat (maxAttempts + 1 - attempt) = n ->
    (forall i, attempt <= i <= maxAttempts -> fetch i = fetch' i) ->
    Api.pollFrom fetch maxAttempts attempt sent slept
    = Api.pollFrom fetch' maxAttempts attempt sent slept.
Proof.
  induction n as [|n IH]; intros attempt sent slept Hn Hsame.
  - rewrite !pollFrom_exit by lia. reflexivity.
  - rewrite (pollFrom_unfold fetch), (pollFrom_unfold fetch').
    destruct (decide (attempt <= maxAttempts)); [|reflexivity].
    rewrite <- (Hsame attempt) by lia.
    destruct (Api.pollAttempt (fetch attempt)); try reflexivity.
    destruct (decide (attempt < maxAttempts));
      apply IH; try lia; intros i Hi; apply Hsame; lia.
Qed.

(** X2. [pollResults] reads the answers to requests 1 to [maxAttempts] and
    nothing else: two servers that answer those requests alike give the same
    run. *)
Theorem poll_reads_only_first_attempts
    (fetch fetch' : Z -> Completion (Response Api.PollResponse)) (maxAttempts : Z) :
  (forall i, 1 <= i <= maxAttempts -> fetch i = fetch' i) ->
  Api.pollResults fetch maxAttempts = Api.pollResults fetch' maxAttempts.
Proof.
  intros Hsame. unfold Api.pollResults.
  apply (pollFrom_ext fetch fetch' maxAttempts (Z.to_nat (maxAttempts + 1 - 1)));
    [reflexivity | exact Hsame].
Qed.

Lemma poll_reads_only_first_attempts_witness :
  Api.pollResults (Samples.switch_at 3 Samples.pending_data Samples.completed_data) 2
  = Api.pollResults (Samples.always Samples.pending_data) 2.
Proof.
  apply poll_reads_only_first_attempts.
  intros i Hi. unfold Samples.switch_at, Samples.always.
  destruct (Z.ltb_spec i 3); [reflexivity|lia].
Defined.

(** X3. [pollResults] sends no request at all exactly when [maxAttempts] is
    below 1, and then it rejects with the timeout error at once, without
    sleeping. *)
Theorem poll_without_attempts
    (fetch : Z -> Completion (Response Api.PollResponse)) (maxAttempts : Z) :
  (Api.requests (Api.pollResults fetch maxAttempts) = 0 <-> maxAttempts <= 0)
  /\ (maxAttempts <= 0 ->
      Api.pollResults fetch maxAttempts
      = Api.mkPollRun (Throw (Api.timeout_error maxAttempts)) 0 0).
Proof.
  split; [split|].
  - intros Hz.
    destruct (pollFrom_ending fetch maxAttempts 1 0 0)
      as [k r Hk _ _ Heq|k e Hk _ _ Heq|_ Heq];
      unfold Api.pollResults in Hz; rewrite Heq in Hz; simpl in Hz; lia.
  - intros Hle. unfold Api.pollResults. rewrite pollFrom_exit by lia. reflexivity.
  - intros Hle. unfold Api.pollResults. apply pollFrom_exit. lia.
Qed.

Lemma poll_without_attempts_witness :
  Api.pollResults (Samples.always Samples.completed_data) 0
  = Api.mkPollRun (Throw (Api.timeout_error 0)) 0 0.
Proof.
  apply (poll_without_attempts (Samples.always Samples.completed_data) 0). lia.
Defined.

(** X4. A failed request ends the polling; nothing is retried.  If the
    request of attempt [k] throws, or its response is not [ok] (whatever its
    body says), or its body does not decode, [pollResults] rejects at that
    attempt: with the thrown error, or with "Polling request failed" naming
    the HTTP status and the body text. *)
Theorem poll_failure_ends_polling
    (fetch : Z -> Completion (Response Api.PollResponse)) (maxAttempts k : Z) :
  1 <= k <= maxAttempts ->
  (forall i, 1 <= i < k -> Api.pollAttempt (fetch i) = Api.Continue) ->
  let rejected e := Api.mkPollRun (Throw e) k (Api.POLL_INTERVAL_MS * (k - 1)) in
  (forall e, fetch k = Throw e -> Api.pollResults fetch maxAttempts = rejected e)
  /\ (forall response, fetch k = Return response -> ok response = false ->
        Api.pollResults fetch maxAttempts
        = rejected (mkError ("Polling request failed (" +:+ num (http_status response)
                               +:+ "): " +:+ text response)))
  /\ (forall response e, fetch k = Return response -> ok response = true ->
        json response = Throw e ->
        Api.pollResults fetch maxAttempts = rejected e).
Proof.
  intros Hk Hc rejected. subst rejected.
  pose proof (pollResults_stops_at fetch maxAttempts k Hk Hc) as Hstop.
  split; [|split].
  - intros e Hf. rewrite Hstop, Hf. reflexivity.
  - intros response Hf Hok. rewrite Hstop, Hf. unfold Api.pollAttempt.
    rewrite Hok. reflexivity.
  - intros response e Hf Hok Hj. rewrite Hstop, Hf. unfold Api.pollAttempt.
    rewrite Hok, Hj. reflexivity.
Qed.

Lemma poll_failure_ends_polling_witness :
  Api.pollResults
    (Samples.failing_at 2 Samples.pending_data (Return Samples.unavailable)) 20
  = Api.mkPollRun
      (Throw (mkError "Polling request failed (503): Service Unavailable")) 2 3000.
Proof.
  pose proof (poll_failure_ends_polling
                (Samples.failing_at 2 Samples.pending_data (Return Samples.unavailable))
                20 2) as H.
  destruct H as (_ & Hstatus & _).
  - lia.
  - intros i Hi. assert (i = 1) as -> by lia. reflexivity.
  - apply (Hstatus Samples.unavailable); reflexivity.
Defined.

(* ===================================================================== *)
(** * The upload form *)
(* ===================================================================== *)

(** The first piece of [split_dot] has no dot; the last one is the text after
    the last dot. *)
Lemma split_dot_shape (s : string) :
  exists seg0 segs,
    Api.split_dot s = seg0 :: segs
    /\ Api.has_dot seg0 = false
    /\ (Api.has_dot s = false -> segs = [] /\ seg0 = s)
    /\ (Api.has_dot s = true ->
        exists seg p, last segs = Some seg /\ Api.has_dot seg = false
                      /\ s = p +:+ "." +:+ seg).
Proof.
  induction s as [|c rest (seg0 & segs & Hsplit & Hhead & Hnone & Hsome)]; simpl.
  - exists EmptyString, []. repeat split; try reflexivity. discriminate.
  - rewrite Hsplit. destruct (Ascii.eqb_spec c ".") as [->|Hc]; simpl.
    + exists EmptyString, (seg0 :: segs). repeat split; try discriminate.
      intros _. destruct (Api.has_dot rest) eqn:Hrest.
      * destruct (Hsome eq_refl) as (seg & p & Hlast & Hseg & ->).
        exists seg, (String "." p). repeat split; [|assumption].
        rewrite last_cons, Hlast. reflexivity.
      * destruct (Hnone eq_refl) as [-> ->].
        exists rest, EmptyString. repeat split; assumption.
    + exists (String c seg0), segs. simpl.
      apply Ascii.eqb_neq in Hc. rewrite Hc. simpl. repeat split.
      * assumption.
      * apply Hnone; assumption.
      * f_equal. apply Hnone; assumption.
      * intros Hrest. destruct (Hsome Hrest) as (seg & p & Hlast & Hseg & ->).
        exists seg, (String c p). repeat split; assumption.
Qed.

Lemma last_split_dot (s : string) :
  exists seg,
    last (Api.split_dot s) = Some seg
    /\ Api.has_dot seg = false
    /\ (if Api.has_dot s then exists p, s = p +:+ "." +:+ seg else seg = s).
Proof.
  destruct (split_dot_shape s) as (seg0 & segs & Hsplit & Hhead & Hnone & Hsome).
  rewrite Hsplit. destruct (Api.has_dot s) eqn:Hs.
  - destruct (Hsome eq_refl) as (seg & p & Hlast & Hseg & ->).
    exists seg. rewrite last_cons, Hlast. repeat split; eauto.
  - destruct (Hnone eq_refl) as [-> ->]. exists s. repeat split; assumption.
Qed.

(** X5. The body [uploadToS3] posts is the policy fields, in their order,
    followed by exactly one part, the file, as the pre-signed POST requires.
    The file is named [photo.] plus the lower-cased text after the last dot of
    the URI (the whole URI when it has no dot: the [jpg] default is never
    used), and is typed [image/png] when that text is [png] and [image/jpeg]
    otherwise. *)
Theorem upload_form_layout
    (toLowerCase : string -> string) (fields : list (string * string))
    (imageUri : string) :
  exists seg,
    Api.has_dot seg = false
    /\ (if Api.has_dot imageUri then exists p, imageUri = p +:+ "." +:+ seg
        else seg = imageUri)
    /\ Api.extension toLowerCase imageUri = toLowerCase seg
    /\ Api.uploadForm toLowerCase fields imageUri
       = map (fun kv => Api.Field (fst kv) (snd kv)) fields
         ++ [Api.FileRef "file" imageUri ("photo." +:+ toLowerCase seg)
               (if String.eqb (toLowerCase seg) "png"
                then "image/png" else "image/jpeg")].
Proof.
  destruct (last_split_dot imageUri) as (seg & Hlast & Hseg & Hshape).
  exists seg.
  assert (Hext : Api.extension toLowerCase imageUri = toLowerCase seg)
    by (unfold Api.extension; rewrite Hlast; reflexivity).
  repeat split; try assumption.
  unfold Api.uploadForm, Api.mimeType. rewrite Hext. reflexivity.
Qed.

Lemma has_dot_app (p s : string) :
  Api.has_dot (p +:+ s) = Api.has_dot p || Api.has_dot s.
Proof.
  induction p as [|c p IH]; simpl; [reflexivity|].
  rewrite IH, orb_assoc. reflexivity.
Qed.

Lemma last_split_dot_cons (c : ascii) (rest : string) :
  Api.has_dot rest = true ->
  last (Api.split_dot (String c rest)) = last (Api.split_dot rest).
Proof.
  intros Hrest.
  destruct (split_dot_shape rest) as (seg0 & segs & Hsplit & _ & _ & Hsome).
  destruct (Hsome Hrest) as (seg & p & Hlast & _).
  change (Api.split_dot (String c rest))
    with (if Ascii.eqb c "."%char then EmptyString :: Api.split_dot rest
          else match Api.split_dot rest with
               | seg :: segs => String c seg :: segs
               | [] => [String c EmptyString]
               end).
  rewrite Hsplit.
  destruct segs as [|seg1 segs]; [discriminate|].
  destruct (Ascii.eqb c "."); rewrite !last_cons_cons; reflexivity.
Qed.

Lemma last_split_dot_app (p seg : string) :
  Api.has_dot seg = false ->
  last (Api.split_dot (p +:+ "." +:+ seg)) = Some seg.
Proof.
  intros Hseg. induction p as [|c p IH].
  - change (Api.split_dot (EmptyString +:+ "." +:+ seg))
      with (EmptyString :: Api.split_dot seg).
    destruct (split_dot_shape seg) as (seg0 & segs & Hsplit & _ & Hnone & _).
    rewrite Hsplit. destruct (Hnone Hseg) as [-> ->]. reflexivity.
  - change (String c p +:+ "." +:+ seg) with (String c (p +:+ "." +:+ seg)).
    rewrite last_split_dot_cons; [exact IH|].
    rewrite has_dot_app. simpl. apply orb_true_r.
Qed.

(** X6. For a URI that ends in a dot and an extension without dots, the
    uploaded file is named after that extension, lower-cased, however many
    dots come before it; it is sent as PNG only when the lower-cased extension
    is [png]. *)
Theorem upload_extension_of_suffix
    (toLowerCase : string -> string) (stem ext : string) :
  Api.has_dot ext = false ->
  Api.extension toLowerCase (stem +:+ "." +:+ ext) = toLowerCase ext
  /\ Api.mimeType toLowerCase (stem +:+ "." +:+ ext)
     = (if String.eqb (toLowerCase ext) "png" then "image/png" else "image/jpeg").
Proof.
  intros Hext.
  assert (H : Api.extension toLowerCase (stem +:+ "." +:+ ext) = toLowerCase ext)
    by (unfold Api.extension; rewrite (last_split_dot_app stem ext Hext); reflexivity).
  split; [exact H|]. unfold Api.mimeType. rewrite H. reflexivity.
Qed.

Lemma upload_extension_of_suffix_witness :
  Api.extension Samples.lower "file:///var/mobile/IMG.0042.PNG" = "png"
  /\ Api.mimeType Samples.lower "file:///var/mobile/IMG.0042.PNG" = "image/png".
Proof.
  apply (upload_extension_of_suffix Samples.lower "file:///var/mobile/IMG.0042" "PNG").
  reflexivity.
Defined.

(* ===================================================================== *)
(** * More on the home screen *)
(* ===================================================================== *)

(** X7. When the request for the upload URL fails, or the upload to S3 does,
    [handleIdentify] ends in [error] with the thrown message straight from
    [uploading]: the screen never enters [processing], and the result does not
    depend on what the results endpoint would answer. *)
Theorem upload_failure_skips_polling
    (scr : HomeScreen.Screen) (uri : string)
    (url_reply : Completion (Response Api.UploadUrlResponse))
    (s3_reply : Completion (Response unit))
    (results : Z -> Completion (Response Api.PollResponse)) (e : Error) :
  HomeScreen.imageUri scr = Some uri ->
  uri <> EmptyString ->
  Api.getUploadUrl url_reply = Throw e
  \/ (exists grant, Api.getUploadUrl url_reply = Return grant)
     /\ Api.uploadToS3 s3_reply = Throw e ->
  HomeScreen.handleIdentify (HomeScreen.mkBackend url_reply s3_reply results) scr
  = HomeScreen.mkScreen (Some uri) HomeScreen.error (Some (message e))
      (HomeScreen.navigated scr)
      (HomeScreen.history scr ++ [HomeScreen.uploading; HomeScreen.error]).
Proof.
  intros Himg Huri Hfail. apply String.eqb_neq in Huri.
  unfold HomeScreen.handleIdentify. rewrite Himg, Huri. simpl.
  destruct Hfail as [Hurl|[[grant Hurl] Hs3]]; rewrite Hurl; [|rewrite Hs3];
    unfold HomeScreen.fail, HomeScreen.setUploadState, HomeScreen.setErrorMessage;
    simpl; rewrite Himg, <- app_assoc; reflexivity.
Qed.

Lemma upload_failure_skips_polling_witness :
  HomeScreen.handleIdentify
    (HomeScreen.mkBackend (PollProtocol.reply Samples.grant)
       (Return (mkResponse false 403 "Policy expired" (Return tt)))
       (Samples.always Samples.completed_data))
    Samples.screen0
  = HomeScreen.mkScreen (Some "file:///fish.jpg") HomeScreen.error
      (Some "S3 upload failed (403): Policy expired") None
      [HomeScreen.uploading; HomeScreen.error].
Proof.
  apply (upload_failure_skips_polling Samples.screen0 "file:///fish.jpg"
           (PollProtocol.reply Samples.grant)
           (Return (mkResponse false 403 "Policy expired" (Return tt)))
           (Samples.always Samples.completed_data)
           (mkError "S3 upload failed (403): Policy expired")).
  - reflexivity.
  - discriminate.
  - right. split; [exists Samples.grant|]; reflexivity.
Defined.



(* ===================================================================== *)
(** * More on the webapp *)
(* ===================================================================== *)

(** X9. [authFetch] hands back a response only when the token is truthy
    (neither [null] nor the empty string), the request came back, and the
    status is not 401; then it is that very response (a 500 included) and the
    page is untouched.  Every other time it throws: the request's own error
    with the page untouched, or "Session expired" after the click on the
    logout button has hidden the four sections, when the token is missing or
    the status is 401.  It never returns a 401. *)
Theorem authFetch_returns_only_authorised {A : Type}
    (token : option string) (fetched : Completion (Response A)) (pg : App.Page) :
  (forall res pg',
     App.authFetch token fetched pg = (Return res, pg')
     <-> is_Some (App.truthy token) /\ fetched = Return res
         /\ http_status res <> 401 /\ pg' = pg)
  /\ (forall e pg',
        App.authFetch token fetched pg = (Throw e, pg') ->
        (e = App.session_expired /\ pg' = App.logout pg
         /\ (App.truthy token = None
             \/ exists res, fetched = Return res /\ http_status res = 401))
        \/ (is_Some (App.truthy token) /\ fetched = Throw e /\ pg' = pg))
  /\ (App.truthy token = None <-> token = None \/ token = Some EmptyString)
  /\ App.view (App.logout pg) = App.view_none.
Proof.
  split; [|split; [|split; [|reflexivity]]].
  - intros res pg'. split.
    + intros H. apply authFetch_Return in H. tauto.
    + intros (Ht & -> & Hne & ->). apply authFetch_authorised; assumption.
  - intros e pg'. unfold App.authFetch.
    destruct (App.truthy token) as [t|] eqn:Ht.
    + destruct fetched as [r|e'].
      * destruct (Z.eqb_spec (http_status r) 401) as [H401|H401]; [|discriminate].
        intros [= <- <-]. left. eauto 6.
      * intros [= <- <-]. right. eauto.
    + intros [= <- <-]. left. auto.
  - unfold App.truthy. destruct token as [t|].
    + destruct (String.eqb_spec t EmptyString) as [->|Hne].
      * split; auto.
      * split; [discriminate|]. intros [H|H]; congruence.
    + split; auto.
Qed.

(** X10. [getIdToken] resolves with a token only for a signed-in user whose
    session came back without error and valid, and then stores that token in
    [idToken]; in every other case it resolves with [null] and leaves
    [idToken] as it was.  Without such a session every [authFetch] throws
    "Session expired", whatever the request would have returned, after the
    click on the logout button. *)
Theorem getIdToken_needs_valid_session {A : Type}
    (cognitoUser : option App.SessionReply) (idToken : option string)
    (fetched : Completion (Response A)) :
  (forall t,
     fst (App.getIdToken cognitoUser idToken) = Some t
     <-> exists sess,
           cognitoUser = Some (App.mkSessionReply false (Some sess))
           /\ App.isValid sess = true /\ App.jwt sess = t)
  /\ (forall t, fst (App.getIdToken cognitoUser idToken) = Some t ->
        snd (App.getIdToken cognitoUser idToken) = Some t)
  /\ (fst (App.getIdToken cognitoUser idToken) = None ->
      snd (App.getIdToken cognitoUser idToken) = idToken
      /\ forall pg,
           App.authFetchAs cognitoUser idToken fetched pg
           = (Throw App.session_expired, App.logout pg)).
Proof.
  unfold App.authFetchAs, App.getIdToken.
  destruct cognitoUser as [[[] [[[] j]|]]|]; simpl;
    (split; [intros t; split; [try discriminate | intros (sess & Heq & Hv & Hj)] |
             split; [intros t; try discriminate | try discriminate]]);
    try (injection Heq as <-; simpl in *; discriminate);
    try discriminate;
    try (intros _; split; reflexivity).
  - intros [= <-]. exists (App.mkCognitoSession true j). auto.
  - injection Heq as <-. simpl in Hj. subst. reflexivity.
  - intros [= <-]. reflexivity.
Qed.

Lemma getIdToken_needs_valid_session_witness :
  App.authFetchAs
    (Some (App.mkSessionReply false (Some (App.mkCognitoSession false "stale"))))
    (Some "stale") (PollProtocol.reply (Samples.web_data "ready")) Samples.page0
  = (Throw App.session_expired, App.logout Samples.page0).
Proof.
  destruct (getIdToken_needs_valid_session
              (Some (App.mkSessionReply false (Some (App.mkCognitoSession false "stale"))))
              (Some "stale") (PollProtocol.reply (Samples.web_data "ready")))
    as (_ & _ & Hnone).
  apply Hnone. reflexivity.
Defined.

Lemma web_pollAttempt_Ready_status (k : Z) fetched (data : App.ResultsData) :
  App.pollAttempt k fetched = App.Ready data -> App.status data = "ready".
Proof.
  unfold App.pollAttempt. destruct fetched as [res|e]; [|discriminate].
  destruct (negb (ok res)); [discriminate|].
  destruct (json res) as [d|e]; [|discriminate].
  destruct (String.eqb_spec (App.status d) "ready") as [Hs|Hs].
  - intros [= <-]. exact Hs.
  - destruct (App.POLL_MAX_ATTEMPTS <=? k); discriminate.
Qed.

Lemma or_else_nonempty (m d : string) :
  d <> EmptyString -> or_else m d <> EmptyString.
Proof.
  intros Hd. unfold or_else.
  destruct (String.eqb_spec m EmptyString); assumption.
Qed.

Lemma or_else_message (m d : string) : m <> EmptyString -> or_else m d = m.
Proof.
  intros Hm. unfold or_else.
  destruct (String.eqb_spec m EmptyString); [contradiction|reflexivity].
Qed.

(** The steps before the polling leave the interval alone. *)
Lemma upload_pollTimer (net : App.Backend) (pg : App.Page) :
  App.pollTimer (snd (App.upload net pg)) = App.pollTimer pg.
Proof.
  unfold App.upload.
  pose proof (authFetch_pollTimer (App.token net) (App.upload_url_reply net) pg) as H.
  destruct (App.authFetch (App.token net) (App.upload_url_reply net) pg) as [f pg'].
  exact H.
Qed.

(** X11. [startIdentification] does nothing when no file is selected.  When
    a step before the polling throws, it ends showing the error section with
    a non-empty text, the interval as it was.  Otherwise it polls, and at
    every moment of the polling the interval is set exactly while the promise
    is unsettled; the event that settles the promise leaves the interval
    cleared and the page showing either the results, filled from a response
    whose status is [ready], or the error section with a non-empty text (the
    error's message, or a default text when it has none). *)
Theorem startIdentification_comes_to_rest (net : App.Backend) (pg : App.Page) :
  (forall schedule, App.startIdentification net false schedule pg = pg)
  /\ (forall e pg' schedule,
        App.upload net (App.showState App.view_status pg) = (Throw e, pg') ->
        let final := App.startIdentification net true schedule pg in
        final = App.fail e pg'
        /\ App.view final = App.view_error
        /\ App.errorText final <> EmptyString
        /\ App.pollTimer final = App.pollTimer pg)
  /\ (forall image_id pg' schedule,
        App.upload net (App.showState App.view_status pg) = (Return image_id, pg') ->
        let m := App.run (App.results net) App.fail schedule (App.start pg') in
        App.startIdentification net true schedule pg = App.page (App.poller m)
        /\ App.well_formed m)
  /\ (forall m ev,
        App.settled (App.poller m) = None ->
        let m' := App.deliver (App.results net) App.fail m ev in
        let after := App.page (App.poller m') in
        is_Some (App.settled (App.poller m')) ->
        App.pollTimer after = false
        /\ ((App.settled (App.poller m') = Some (Return tt)
             /\ App.view after = App.view_results
             /\ exists data, App.displayed after = Some data /\ App.status data = "ready")
            \/ (exists e, App.settled (App.poller m') = Some (Throw e)
                /\ App.view after = App.view_error
                /\ App.errorText after <> EmptyString
                /\ (message e <> EmptyString -> App.errorText after = message e)))).
Proof.
  split; [reflexivity|split; [|split]].
  - intros e pg' schedule Hup final. subst final.
    unfold App.startIdentification. simpl. rewrite Hup.
    split; [reflexivity|]. split; [reflexivity|]. split.
    + apply or_else_nonempty. discriminate.
    + pose proof (upload_pollTimer net (App.showState App.view_status pg)) as H.
      rewrite Hup in H. exact H.
  - intros image_id pg' schedule Hup m. subst m.
    unfold App.startIdentification. simpl. rewrite Hup.
    split; [reflexivity|].
    apply run_well_formed; [reflexivity|apply start_well_formed].
  - intros m ev Hnone m' after Hsome. subst after m'.
    destruct ev as [|n]; simpl in *.
    + destruct (App.pollTimer (App.page (App.poller m))); simpl in Hsome;
        rewrite Hnone in Hsome; destruct Hsome; discriminate.
    + destruct (bool_decide (n ∈ App.unanswered m));
        [|rewrite Hnone in Hsome; destruct Hsome; discriminate].
      simpl in *. unfold App.onReply in *.
      destruct (App.authFetch (App.id_token (App.results net n))
                  (App.reply (App.results net n)) (App.page (App.poller m)))
        as [res pgx].
      destruct (App.pollAttempt (App.attempts (App.poller m)) res)
        as [data| | |e] eqn:Hv; unfold App.rejected in *; simpl in *;
        rewrite Hnone in *; simpl in *.
      * split; [reflexivity|]. left. split; [reflexivity|]. split; [reflexivity|].
        exists data. split; [reflexivity|].
        apply (web_pollAttempt_Ready_status _ _ _ Hv).
      * split; [reflexivity|]. right. exists App.poll_timeout_error.
        split; [reflexivity|]. split; [reflexivity|]. split.
        -- apply or_else_nonempty. discriminate.
        -- intros Hm. apply or_else_message, Hm.
      * destruct Hsome; discriminate.
      * split; [reflexivity|]. right. exists e.
        split; [reflexivity|]. split; [reflexivity|]. split.
        -- apply or_else_nonempty. discriminate.
        -- intros Hm. apply or_else_message, Hm.
Qed.

(** Answered [error] on every request, each answer in before the next tick,
    the identification ends at the limit with the timeout text shown. *)
Lemma startIdentification_comes_to_rest_witness :
  let net := Samples.web_backend (Samples.always (Samples.web_data "error")) in
  let m := App.run (App.results net) App.fail (App.promptly 39)
             (App.start (App.showState App.view_status Samples.page0)) in
  let after := App.page (App.poller
                 (App.deliver (App.results net) App.fail
                    (App.deliver (App.results net) App.fail m App.Tick)
                    (App.Reply 40))) in
  App.pollTimer after = false
  /\ App.view after = App.view_error
  /\ App.errorText after = message App.poll_timeout_error.
Proof.
  intros net m after.
  destruct (startIdentification_comes_to_rest net Samples.page0) as (_ & _ & _ & Hsettle).
  destruct (Hsettle (App.deliver (App.results net) App.fail m App.Tick) (App.Reply 40))
    as (Hoff & _).
  - vm_compute. reflexivity.
  - vm_compute. eauto.
  - split; [exact Hoff|]. vm_compute. split; reflexivity.
Defined.

(** An answer that comes after the promise is settled still runs its
    callback: here the second request is answered [ready] first and the
    results are shown; then the first comes back with a 401 and the click on
    the logout button hides every section. *)
Example late_401_hides_every_section :
  let net := Samples.web_backend Samples.late_401 in
  let settled := App.startIdentification net true
                   (take 3 Samples.second_answer_first) Samples.page0 in
  let final := App.startIdentification net true
                 Samples.second_answer_first Samples.page0 in
  (App.view settled = App.view_results /\ App.pollTimer settled = false)
  /\ (App.view final = App.view_none /\ App.pollTimer final = false
      /\ App.displayed final = Some (Samples.web_data "ready")).
Proof. vm_compute. repeat split. Qed.

(** X12. A failed request ends the webapp polling; nothing is retried.  When
    the answer to a request is a thrown error, a response that is not [ok]
    (whatever its body says) or a body that does not decode, the callback
    clears the interval and rejects with the thrown error, or with "Results
    API error" naming the HTTP status, and the page is otherwise left as it
    was.  When the session is lost (no token, an empty one, or a 401) it
    rejects with "Session expired" and the click on the logout button has
    hidden the four sections.  With the interval cleared no tick sends a
    request any more. *)
Theorem webapp_poll_failure_ends_polling
    (requests : Z -> App.Request) (n : Z) (p : App.Poller) :
  let token := App.id_token (requests n) in
  let after := App.onReply requests (fun _ pg => pg) n p in
  let rejected e pg :=
    App.mkPoller (App.attempts p) (App.settle (Throw e) (App.settled p))
      (App.mkPage false (App.view pg) (App.errorText pg) (App.displayed pg))
      (App.waited_ms p) in
  (App.truthy token = None ->
   after = rejected App.session_expired (App.logout (App.page p)))
  /\ (is_Some (App.truthy token) ->
      (forall e, App.reply (requests n) = Throw e -> after = rejected e (App.page p))
      /\ (forall res, App.reply (requests n) = Return res ->
            (http_status res = 401 ->
             after = rejected App.session_expired (App.logout (App.page p)))
            /\ (http_status res <> 401 -> ok res = false ->
                after = rejected
                          (mkError ("Results API error (HTTP "
                                      +:+ num (http_status res) +:+ ")"))
                          (App.page p))
            /\ (forall e, http_status res <> 401 -> ok res = true ->
                  json res = Throw e -> after = rejected e (App.page p))))
  /\ (forall m caught,
        App.pollTimer (App.page (App.poller m)) = false ->
        App.deliver requests caught m App.Tick = m).
Proof.
  intros token after rejected. subst token after rejected.
  split; [|split].
  - intros Ht. unfold App.onReply, App.authFetch. rewrite Ht. simpl.
    unfold App.rejected. destruct (App.settled p); reflexivity.
  - intros [t Ht]. split.
    + intros e Hr. unfold App.onReply, App.authFetch. rewrite Ht, Hr. simpl.
      unfold App.rejected. destruct (App.settled p); reflexivity.
    + intros res Hr. split; [|split].
      * intros H401. unfold App.onReply, App.authFetch. rewrite Ht, Hr.
        apply Z.eqb_eq in H401. rewrite H401. simpl.
        unfold App.rejected. destruct (App.settled p); reflexivity.
      * intros H401 Hok. unfold App.onReply.
        rewrite Hr, (authFetch_authorised _ res _ (ex_intro _ t Ht) H401).
        unfold App.pollAttempt. rewrite Hok. simpl.
        unfold App.rejected. destruct (App.settled p); reflexivity.
      * intros e H401 Hok Hj. unfold App.onReply.
        rewrite Hr, (authFetch_authorised _ res _ (ex_intro _ t Ht) H401).
        unfold App.pollAttempt. rewrite Hok, Hj. simpl.
        unfold App.rejected. destruct (App.settled p); reflexivity.
  - intros m caught Hoff. simpl. rewrite Hoff. reflexivity.
Qed.

(** The third request comes back with a 503 whose body would read [ready]. *)
Lemma webapp_poll_failure_ends_polling_witness :
  App.onReply
    (App.signed_in
       (Samples.failing_at 3 (Samples.web_data "pending") (Return Samples.web_unavailable)))
    (fun _ pg => pg) 3 (App.poller Samples.polling)
  = App.mkPoller 3 (Some (Throw (mkError "Results API error (HTTP 503)")))
      Samples.page0 9000.
Proof.
  destruct (webapp_poll_failure_ends_polling
              (App.signed_in
                 (Samples.failing_at 3 (Samples.web_data "pending")
                    (Return Samples.web_unavailable)))
              3 (App.poller Samples.polling)) as (_ & Hfail & _).
  destruct Hfail as (_ & Hres); [eexists; reflexivity|].
  destruct (Hres Samples.web_unavailable eq_refl) as (_ & Hstatus & _).
  apply Hstatus; [discriminate|reflexivity].
Defined.

Lemma authFetch_returns_only_authorised_witness :
  App.authFetch (Some "jwt") (Return Samples.web_unavailable) Samples.page0
  = (Return Samples.web_unavailable, Samples.page0).
Proof.
  apply (authFetch_returns_only_authorised (Some "jwt") (Return Samples.web_unavailable)
           Samples.page0).
  split; [eexists; reflexivity|split; [reflexivity|split; [discriminate|reflexivity]]].
Defined.

(** X16. The interval of [pollForResults] fires whether or not earlier
    requests have been answered, and the limit is looked at only when an
    answer comes in.  Under every schedule of ticks and answers: the interval
    is set exactly while the promise is unsettled, [attempts] counts the ticks
    (one interval each) and the requests still out are among those sent; an
    answer to a request that is out, coming once [attempts] has reached the
    limit, always clears the interval and leaves the promise settled.  When
    every answer is in before the next tick the poll ends within 40 ticks,
    120 s. *)
Theorem webapp_limit_tested_on_answer
    (requests : Z -> App.Request) (schedule : list App.Event) (pg : App.Page) :
  let m := App.pollForResults requests schedule pg in
  let prompt := App.poller (App.pollForResults requests (App.promptly 40) pg) in
  ((App.pollTimer (App.page (App.poller m)) = true <-> App.settled (App.poller m) = None)
   /\ 0 <= App.attempts (App.poller m)
   /\ App.waited_ms (App.poller m) = App.POLL_INTERVAL_MS * App.attempts (App.poller m)
   /\ Forall (fun n => 1 <= n <= App.attempts (App.poller m)) (App.unanswered m))
  /\ (forall n,
        n ∈ App.unanswered m ->
        App.POLL_MAX_ATTEMPTS <= App.attempts (App.poller m) ->
        let m' := App.deliver requests (fun _ pg => pg) m (App.Reply n) in
        App.pollTimer (App.page (App.poller m')) = false
        /\ is_Some (App.settled (App.poller m'))
        /\ App.attempts (App.poller m') = App.attempts (App.poller m))
  /\ (App.pollTimer (App.page prompt) = false
      /\ is_Some (App.settled prompt)
      /\ 1 <= App.attempts prompt <= App.POLL_MAX_ATTEMPTS
      /\ App.waited_ms prompt = App.POLL_INTERVAL_MS * App.attempts prompt).
Proof.
  intros m prompt. split; [|split].
  - apply (run_well_formed requests (fun _ pg => pg) (fun _ _ => eq_refl)),
      start_well_formed.
  - intros n Hn Hle m'. subst m'.
    rewrite (deliver_Reply requests _ m n Hn).
    destruct (onReply_at_limit requests (fun _ pg => pg) (fun _ _ => eq_refl)
                n (App.poller m) Hle) as [Hoff Hsome].
    split; [exact Hoff|split; [exact Hsome|]].
    apply onReply_attempts.
  - apply pollForResults_promptly.
Qed.

(** Forty-one ticks go by before the first answer, [pending], is in: the
    callback finds [attempts] at 41 and gives up; 41 requests were sent. *)
Lemma webapp_limit_tested_on_answer_witness :
  let requests := App.signed_in (Samples.always (Samples.web_data "pending")) in
  let m := App.pollForResults requests (replicate 41 App.Tick) Samples.page0 in
  let m' := App.deliver requests (fun _ pg => pg) m (App.Reply 1) in
  App.attempts (App.poller m) = 41
  /\ App.pollTimer (App.page (App.poller m')) = false
  /\ is_Some (App.settled (App.poller m'))
  /\ App.attempts (App.poller m') = 41.
Proof.
  intros requests m m'.
  destruct (webapp_limit_tested_on_answer requests (replicate 41 App.Tick) Samples.page0)
    as (_ & Hlimit & _).
  destruct (Hlimit 1) as (Hoff & Hsome & Hatt).
  - vm_compute. apply list_elem_of_here.
  - vm_compute. discriminate.
  - split; [vm_compute; reflexivity|]. split; [exact Hoff|]. split; [exact Hsome|].
    vm_compute. reflexivity.
Defined.

(** The same run to its end: the promise rejects with the timeout error after
    41 ticks, 123 s, one request answered and forty still out. *)
Example slow_answer_passes_limit :
  let m := App.pollForResults
             (App.signed_in (Samples.always (Samples.web_data "pending")))
             Samples.slow_first_answer Samples.page0 in
  App.poller m
  = App.mkPoller 41 (Some (Throw App.poll_timeout_error))
      (App.setTimer false Samples.page0) 123000
  /\ length (App.unanswered m) = 40%nat.
Proof. vm_compute. split; reflexivity. Qed.

(* ===================================================================== *)
(** * The mobile sign-in *)
(* ===================================================================== *)

(** X13. The root component's check on mount always leaves [loading]: it
    ends in [authenticated], showing the home stack, exactly when the SDK
    finds a current user, and in [unauthenticated], showing the sign-in
    screen, exactly when the SDK throws.  The check's own [catch] is never
    reached, [getCurrentUser] having caught already. *)
Theorem mount_check_settles
    (Session : Type) (amplifyGetCurrentUser : Session -> Completion Auth.AuthUser)
    (s : Session) :
  let state := Root.checkAuth Session amplifyGetCurrentUser s in
  state <> Root.loading
  /\ (state = Root.authenticated <-> exists user, amplifyGetCurrentUser s = Return user)
  /\ (state = Root.unauthenticated <-> exists e, amplifyGetCurrentUser s = Throw e)
  /\ Root.render state
     = match amplifyGetCurrentUser s with
       | Return _ => Root.HomeStack
       | Throw _ => Root.SignInScreen
       end
  /\ (forall e, Auth.getCurrentUser Session amplifyGetCurrentUser s <> Throw e).
Proof.
  unfold Root.checkAuth, Auth.getCurrentUser.
  destruct (amplifyGetCurrentUser s) as [user|e]; simpl;
    repeat split; try discriminate; eauto;
    intros [x Hx]; discriminate.
Qed.

Lemma mount_check_settles_witness :
  Root.checkAuth _ Samples.amplify (Some Samples.fisher) = Root.authenticated
  /\ Root.checkAuth _ Samples.amplify None = Root.unauthenticated.
Proof.
  split.
  - apply (mount_check_settles _ Samples.amplify (Some Samples.fisher)).
    exists Samples.fisher. reflexivity.
  - apply (mount_check_settles _ Samples.amplify None).
    eexists. reflexivity.
Defined.

Section Submit.

Import AuthScreen.

Variable trim : string -> string.
Variable length : string -> Z.
Variable sdk : Auth.SdkCall -> Completion unit.

Local Abbreviation handleSubmit := (AuthScreen.handleSubmit trim length sdk).

(** The three checks of [handleSubmit], in its order. *)
Lemma handleSubmit_checks (f : Form) :
  handleSubmit f =
  if String.eqb (trim (email f)) EmptyString then
    mkSubmitted
      (mkForm (mode f) (email f) (password f) (code f) (loading f)
         (Some "Please enter your email address.")) [] false
  else if negb (bool_decide (mode f = confirm)) && (length (password f) <? 8) then
    mkSubmitted
      (mkForm (mode f) (email f) (password f) (code f) (loading f)
         (Some "Password must be at least 8 characters.")) [] false
  else if bool_decide (mode f = confirm) && negb (length (trim (code f)) =? 6) then
    mkSubmitted
      (mkForm (mode f) (email f) (password f) (code f) (loading f)
         (Some "Please enter the 6-digit verification code.")) [] false
  else
    let done := attempt trim sdk
                  (mkForm (mode f) (email f) (password f) (code f) true None) in
    mkSubmitted (setLoading false (form done)) (calls done) (authSuccess done).
Proof. reflexivity. Qed.

Lemma attempt_calls (f : Form) : calls (attempt trim sdk f) <> [].
Proof.
  unfold attempt, Auth.signIn, Auth.signUp, Auth.confirmSignUp.
  destruct (mode f); repeat (match goal with |- context [sdk ?c] => destruct (sdk c) end);
    discriminate.
Qed.

End Submit.

(** X14. [handleSubmit] calls the SDK exactly when the form passes its checks.
    A blank email, a password under 8 characters outside the confirmation
    step, or a code that is not 6 characters long on the confirmation step
    stops the submit before any call: only the error message changes (the
    first failing check's), and [onAuthSuccess] is not called. *)
Theorem submit_checks_before_calling
    (trim : string -> string) (length : string -> Z)
    (sdk : Auth.SdkCall -> Completion unit) (f : AuthScreen.Form) :
  let invalid :=
    trim (AuthScreen.email f) = EmptyString
    \/ (AuthScreen.mode f <> AuthScreen.confirm /\ length (AuthScreen.password f) < 8)
    \/ (AuthScreen.mode f = AuthScreen.confirm
        /\ length (trim (AuthScreen.code f)) <> 6) in
  let after := AuthScreen.handleSubmit trim length sdk f in
  (AuthScreen.calls after = [] <-> invalid)
  /\ (invalid ->
      AuthScreen.authSuccess after = false
      /\ AuthScreen.form after
         = AuthScreen.setError
             (Some (if String.eqb (trim (AuthScreen.email f)) EmptyString
                    then "Please enter your email address."
                    else if bool_decide (AuthScreen.mode f = AuthScreen.confirm)
                    then "Please enter the 6-digit verification code."
                    else "Password must be at least 8 characters.")) f).
Proof.
  intros invalid after. subst invalid after.
  rewrite handleSubmit_checks.
  destruct (String.eqb_spec (trim (AuthScreen.email f)) EmptyString) as [He|He].
  { simpl. split; [split; auto|]. intros _. split; reflexivity. }
  destruct (decide (AuthScreen.mode f = AuthScreen.confirm)) as [Hm|Hm].
  - rewrite (bool_decide_eq_true_2 _ Hm). simpl.
    destruct (Z.eqb_spec (length (trim (AuthScreen.code f))) 6) as [Hc|Hc]; simpl.
    + split.
      * split; [intros Hcalls; exfalso; revert Hcalls; apply attempt_calls|].
        intros [?|[[? _]|[_ ?]]]; contradiction.
      * intros [?|[[? _]|[_ ?]]]; contradiction.
    + split; [split; auto|]. intros _. split; reflexivity.
  - rewrite (bool_decide_eq_false_2 _ Hm). simpl.
    destruct (Z.ltb_spec (length (AuthScreen.password f)) 8) as [Hp|Hp]; simpl.
    + split; [split; auto|]. intros _. split; reflexivity.
    + split.
      * split; [intros Hcalls; exfalso; revert Hcalls; apply attempt_calls|].
        intros [?|[[_ ?]|[? _]]]; [contradiction|lia|contradiction].
      * intros [?|[[_ ?]|[? _]]]; [contradiction|lia|contradiction].
Qed.

Lemma submit_checks_before_calling_witness :
  let after := AuthScreen.handleSubmit Samples.trim Samples.text_length
                 Samples.sdk_accepts Samples.short_password_form in
  AuthScreen.calls after = []
  /\ AuthScreen.error (AuthScreen.form after)
     = Some "Password must be at least 8 characters.".
Proof.
  intros after.
  destruct (submit_checks_before_calling Samples.trim Samples.text_length
              Samples.sdk_accepts Samples.short_password_form) as [Hcalls Hform].
  assert (Hinvalid :
    Samples.trim (AuthScreen.email Samples.short_password_form) = EmptyString
    \/ (AuthScreen.mode Samples.short_password_form <> AuthScreen.confirm
        /\ Samples.text_length (AuthScreen.password Samples.short_password_form) < 8)
    \/ (AuthScreen.mode Samples.short_password_form = AuthScreen.confirm
        /\ Samples.text_length
             (Samples.trim (AuthScreen.code Samples.short_password_form)) <> 6)).
  { right. left. split; [discriminate | reflexivity]. }
  split.
  - apply Hcalls. exact Hinvalid.
  - destruct (Hform Hinvalid) as [_ Hf]. subst after. rewrite Hf. reflexivity.
Defined.

(** X15. A submit that passes the checks always ends with [loading] off and
    the inputs untouched.  It makes one call on the sign-in and sign-up steps;
    on the confirmation step it confirms first and signs in only if that
    succeeded.  [onAuthSuccess] is called exactly when every call made
    succeeded and the step is not sign-up; an error is shown exactly when a
    call failed, and it is the message of the call that failed, after which
    no further call is made.  The confirmation step is entered only by a
    successful sign-up; the toggle never leads to it. *)
Theorem submit_flow
    (trim : string -> string) (length : string -> Z)
    (sdk : Auth.SdkCall -> Completion unit) (f : AuthScreen.Form) :
  let after := AuthScreen.handleSubmit trim length sdk f in
  let succeeded := Forall (fun call => sdk call = Return tt) (AuthScreen.calls after) in
  let address := trim (AuthScreen.email f) in
  AuthScreen.calls after <> [] ->
  (AuthScreen.loading (AuthScreen.form after) = false
   /\ AuthScreen.email (AuthScreen.form after) = AuthScreen.email f
   /\ AuthScreen.password (AuthScreen.form after) = AuthScreen.password f
   /\ AuthScreen.code (AuthScreen.form after) = AuthScreen.code f)
  /\ AuthScreen.calls after
     = match AuthScreen.mode f with
       | AuthScreen.signin => [Auth.signIn_call address (AuthScreen.password f)]
       | AuthScreen.signup => [Auth.signUp_call address (AuthScreen.password f)]
       | AuthScreen.confirm =>
           Auth.confirmSignUp_call address (trim (AuthScreen.code f))
           :: match sdk (Auth.confirmSignUp_call address (trim (AuthScreen.code f))) with
              | Return _ => [Auth.signIn_call address (AuthScreen.password f)]
              | Throw _ => []
              end
       end
  /\ (AuthScreen.authSuccess after = true
      <-> AuthScreen.mode f <> AuthScreen.signup /\ succeeded)
  /\ (AuthScreen.error (AuthScreen.form after) = None <-> succeeded)
  /\ (forall m, AuthScreen.error (AuthScreen.form after) = Some m ->
        exists call e, last (AuthScreen.calls after) = Some call
                       /\ sdk call = Throw e /\ m = message e)
  /\ (AuthScreen.mode (AuthScreen.form after) = AuthScreen.confirm
      <-> AuthScreen.mode f = AuthScreen.confirm
          \/ (AuthScreen.mode f = AuthScreen.signup
              /\ sdk (Auth.signUp_call address (AuthScreen.password f)) = Return tt))
  /\ AuthScreen.mode (AuthScreen.handleToggle f) <> AuthScreen.confirm.
Proof.
  intros after succeeded address. subst after succeeded address.
  rewrite handleSubmit_checks.
  destruct (String.eqb (trim (AuthScreen.email f)) EmptyString);
    [intros H; contradiction|].
  destruct (negb (bool_decide (AuthScreen.mode f = AuthScreen.confirm))
            && (length (AuthScreen.password f) <? 8));
    [intros H; contradiction|].
  destruct (bool_decide (AuthScreen.mode f = AuthScreen.confirm)
            && negb (length (trim (AuthScreen.code f)) =? 6));
    [intros H; contradiction|].
  intros _. cbv zeta.
  unfold AuthScreen.attempt, AuthScreen.handleToggle,
    Auth.signIn, Auth.signUp, Auth.confirmSignUp.
  destruct f as [m em pw cd ld er]. simpl.
  destruct m; simpl;
    repeat (match goal with
            | |- context [sdk ?c] =>
                let H := fresh "Hsdk" in destruct (sdk c) as [[]|?] eqn:H
            end; simpl);
    (split_and!; try reflexivity; try discriminate;
     try (split; [try discriminate|]);
     try (intros m Hm; injection Hm as <-; eauto);
     try (intros; repeat constructor; assumption; fail);
     try (intros [_ HF]; inversion HF; subst; congruence);
     try (intros HF; inversion HF; subst; congruence);
     try (intros [Hne _]; congruence);
     try (split; [discriminate | repeat constructor; assumption]);
     try (intros [?|[? ?]]; congruence);
     try (intros; split; [discriminate | repeat constructor; assumption]);
     try (intros; left; reflexivity);
     try (intros; right; split; reflexivity);
     try (intros _; reflexivity));
    try (intros [_ HF]; rewrite !Forall_cons in HF; destruct_and?; congruence);
    try (intros HF; rewrite !Forall_cons in HF; destruct_and?; congruence).
Qed.

(** The confirmation step with an SDK that accepts: confirm, then sign in,
    with the trimmed address. *)
Lemma submit_flow_witness :
  let after := AuthScreen.handleSubmit Samples.trim Samples.text_length
                 Samples.sdk_accepts Samples.confirm_form in
  AuthScreen.calls after
  = [Auth.confirmSignUp_call "fisher@example.com" "123456";
     Auth.signIn_call "fisher@example.com" "Sardine-2024"]
  /\ AuthScreen.authSuccess after = true
  /\ AuthScreen.loading (AuthScreen.form after) = false.
Proof.
  intros after.
  destruct (submit_flow Samples.trim Samples.text_length Samples.sdk_accepts
              Samples.confirm_form)
    as ((Hloading & _) & Hcalls & Hsuccess & _).
  - discriminate.
  - split; [exact Hcalls|split; [|exact Hloading]].
    apply Hsuccess. split; [discriminate|]. repeat constructor.
Defined.

